(** * s3verify: response verification for ListObjects V1 and
      ListMultipartUploads, and the region default of the server config.

    A shallow embedding of [list-objects-v1.go], [list-multipart-uploads.go]
    and of [setRegion], followed by the properties of the verifiers.

    Conventions.
    - Go [string] is [string]; [==] on strings is [String.eqb].
    - Go [int64] is [Z]; the only operations used on it here are comparisons
      and the conversion [int64(len(..)+len(..))], written [Z.of_nat].
    - Go [int] counters ([listedObjects], [len]) are [nat]: they count loop
      iterations over in-memory slices and do not wrap in any run that
      terminates.
    - A Go function returning [error] runs in the monad [Verify]: it threads
      the log of the calls made to the external collaborators and stops at
      the first error, as [if err != nil { return err }] does. *)

From Stdlib Require Import String Ascii List ZArith Bool Arith Lia Permutation.
From Stdlib Require Import DecimalString.
Import ListNotations.
Local Open Scope string_scope.
Local Open Scope list_scope.

Set Implicit Arguments.

(* ================================================================== *)
(** ** Data model *)

(** Modelled from the spec: the declaration of [ObjectInfo] is not part of
    the sources at hand; the fields are those the verifiers read ([Key],
    [Size], [ETag]) and the last-modified stamp the data model lists. *)
Record ObjectInfo : Type := mkObjectInfo {
  Key : string;
  Size : Z;
  ETag : string;
  LastModified : Z
}.

(** Modelled from the spec: the declaration of [ObjectMultipartInfo] is not
    part of the sources at hand; key, upload ID and size. *)
Record ObjectMultipartInfo : Type := mkObjectMultipartInfo {
  UploadKey : string;
  UploadID : string;
  UploadSize : Z
}.

(** Modelled from the spec: an entry of [CommonPrefixes]; only the number of
    such entries is read by the code. *)
Record commonPrefix : Type := mkCommonPrefix {
  Prefix : string
}.

(** Modelled from the spec: the declaration of [listBucketResult] is not part
    of the sources at hand; bucket name, entries, common prefixes, max-keys
    echo and truncation flag. *)
Record listBucketResult : Type := mkListBucketResult {
  Name : string;
  Contents : list ObjectInfo;
  CommonPrefixes : list commonPrefix;
  MaxKeys : Z;
  IsTruncated : bool
}.

(** Modelled from the spec: the declaration of [listMultipartUploadsResult]
    is not part of the sources at hand; bucket and upload entries. *)
Record listMultipartUploadsResult : Type := mkListMultipartUploadsResult {
  Bucket : string;
  Uploads : list ObjectMultipartInfo
}.

(** The part of [http.Response] the verifiers look at. *)
Record Response : Type := mkResponse {
  Status : string;
  Header : list (string * list string);
  Body : string
}.

(** [ServerConfig], without the HTTP client. *)
Record ServerConfig : Type := mkServerConfig {
  Access : string;
  Secret : string;
  Endpoint : string;
  Region : string
}.

(* ================================================================== *)
(** ** Errors *)

(** The errors the verifiers build with [fmt.Errorf], kept structured; the
    text Go would print is [errorString].  [ExternalError] is an error handed
    back by a collaborator ([xmlDecoder], [verifyStandardHeaders],
    [url.Parse]). *)
Inductive error : Type :=
| UnexpectedStatus (wanted got : string)
| UnexpectedBucket (wanted got : string)
| UnexpectedObjectCount (wanted got : Z)
| UnexpectedUploadCount (wanted got : nat)
| WrongMetaData
| ExternalError (msg : string).

Definition fmt_d (z : Z) : string := NilZero.string_of_int (Z.to_int z).

Definition errorString (e : error) : string :=
  match e with
  | UnexpectedStatus w g =>
      "Unexpected Status Received: wanted " ++ w ++ ", got " ++ g
  | UnexpectedBucket w g =>
      "Unexpected Bucket Listed: wanted " ++ w ++ ", got " ++ g
  | UnexpectedObjectCount w g =>
      "Unexpected Number of Objects Listed: wanted " ++ fmt_d w
        ++ ", got " ++ fmt_d g
  | UnexpectedUploadCount w g =>
      "Unexpected Number of Uploads Listed: wanted " ++ fmt_d (Z.of_nat w)
        ++ ", got " ++ fmt_d (Z.of_nat g)
  | WrongMetaData => "Wrong MetaData Saved in Received List"
  | ExternalError m => m
  end.

(* ================================================================== *)
(** ** The verification monad *)

(** Calls to the collaborators that consume the response. *)
Inductive event : Type :=
| EvDecodeBody
| EvCheckHeaders.

(** A computation takes the log so far and gives the extended log together
    with an error or a value. *)
Definition Verify (A : Type) : Type := list event -> list event * (error + A).

Definition ret {A} (a : A) : Verify A := fun log => (log, inr a).

Definition fail {A} (e : error) : Verify A := fun log => (log, inl e).

Definition bind {A B} (m : Verify A) (k : A -> Verify B) : Verify B :=
  fun log =>
    match m log with
    | (log', inl e) => (log', inl e)
    | (log', inr a) => k a log'
    end.

Definition emit (ev : event) : Verify unit := fun log => (log ++ [ev], inr tt).

Notation "x <- m ;; k" := (bind m (fun x => k))
  (at level 61, m at next level, right associativity).
Notation "m ;;; k" := (bind m (fun _ => k))
  (at level 61, right associativity).

(** Running a Go function of result type [error] from an empty log: the calls
    made, and [None] for a [nil] error. *)
Definition run (m : Verify unit) : list event * option error :=
  match m [] with
  | (log, inl e) => (log, Some e)
  | (log, inr _) => (log, None)
  end.

Definition outcome (m : Verify unit) : option error := snd (run m).
Definition calls (m : Verify unit) : list event := fst (run m).

(** The double-quote character, as a one-character string. *)
Definition dquote : string := String (ascii_of_nat 34) EmptyString.

(** Go's [s[:n]] on a slice, for [n] within the length.  Beyond the length
    the result depends on the capacity of the backing array (a run-time panic
    when [n] exceeds it too), which lists do not record: [None]. *)
Definition sliceTo {A} (n : nat) (l : list A) : option (list A) :=
  if (n <=? length l)%nat then Some (firstn n l) else None.

(* ================================================================== *)
(** ** ListObjects V1 ([list-objects-v1.go]) *)

Module ListObjectsV1.

(** The condition of the inner [if] of [verifyBodyListObjectsV1]. *)
Definition entryMatches (receivedObject expectedObject : ObjectInfo) : bool :=
  (Key receivedObject =? Key expectedObject)
  && (Size receivedObject =? Size expectedObject)%Z
  && (ETag receivedObject =? dquote ++ ETag expectedObject ++ dquote).

(** The two nested [for ... range] loops, with [listedObjects] as the
    accumulator. *)
Definition countListed (received expected : list ObjectInfo) : nat :=
  fold_left
    (fun listedObjects receivedObject =>
       fold_left
         (fun listedObjects expectedObject =>
            if entryMatches receivedObject expectedObject
            then S listedObjects else listedObjects)
         expected listedObjects)
    received 0.

(** Modelled from the spec: the [Less] method of [ObjectInfos], which
    [sort.Sort(objectInfo)] uses, is not part of the sources at hand; entries
    are ordered by key (byte-wise, as Go compares strings). *)
Fixpoint insertByKey (o : ObjectInfo) (l : list ObjectInfo) : list ObjectInfo :=
  match l with
  | [] => [o]
  | x :: l' => if String.leb (Key o) (Key x) then o :: l
               else x :: insertByKey o l'
  end.

Definition sortByKey (l : list ObjectInfo) : list ObjectInfo :=
  fold_right insertByKey [] l.

Section Verifier.

(** [xmlDecoder] applied to a body and a [listBucketResult]. *)
Variable decodeBucketResult : string -> error + listBucketResult.
(** The shared check of the standard response headers. *)
Variable verifyStandardHeaders : Response -> option error.
(** The global registry [objects] of the objects created earlier in the run. *)
Variable objects : list ObjectInfo.

Definition xmlDecoder (body : string) : Verify listBucketResult :=
  emit EvDecodeBody ;;;
  match decodeBucketResult body with
  | inl err => fail err
  | inr v => ret v
  end.

Definition verifyStatusListObjectsV1 (res : Response) (expectedStatus : string)
  : Verify unit :=
  if negb (Status res =? expectedStatus)
  then fail (UnexpectedStatus expectedStatus (Status res))
  else ret tt.

(** Lines 90-115: what the body check does once the body is decoded. *)
Definition compareListObjectsV1 (receivedList expectedList : listBucketResult)
  : Verify unit :=
  if negb (Name receivedList =? Name expectedList)
  then fail (UnexpectedBucket (Name expectedList) (Name receivedList))
  else
    let listedObjects :=
      countListed (Contents receivedList) (Contents expectedList) in
    if negb (MaxKeys expectedList =? 0)%Z then
      let n := Z.of_nat (length (Contents receivedList)
                         + length (CommonPrefixes receivedList)) in
      if negb (MaxKeys expectedList =? n)%Z
      then fail (UnexpectedObjectCount (MaxKeys expectedList) n)
      else ret tt
    else
      if negb (length objects =? listedObjects)%nat
      then fail (UnexpectedObjectCount (Z.of_nat (length objects))
                                       (Z.of_nat listedObjects))
      else ret tt.

Definition verifyBodyListObjectsV1 (res : Response)
    (expectedList : listBucketResult) : Verify unit :=
  receivedList <- xmlDecoder (Body res) ;;
  compareListObjectsV1 receivedList expectedList.

Definition verifyHeaderListObjectsV1 (res : Response) : Verify unit :=
  emit EvCheckHeaders ;;;
  match verifyStandardHeaders res with
  | Some err => fail err
  | None => ret tt
  end.

Definition listObjectsV1Verify (res : Response) (expectedStatus : string)
    (expectedList : listBucketResult) : Verify unit :=
  verifyStatusListObjectsV1 res expectedStatus ;;;
  verifyBodyListObjectsV1 res expectedList ;;;
  verifyHeaderListObjectsV1 res.

(** The order of checks the specification describes: status, headers, body.
    Follows the specification's words, for comparison with
    [listObjectsV1Verify]. *)
Definition listObjectsV1Verify_as_specified (res : Response)
    (expectedStatus : string) (expectedList : listBucketResult) : Verify unit :=
  verifyStatusListObjectsV1 res expectedStatus ;;;
  verifyHeaderListObjectsV1 res ;;;
  verifyBodyListObjectsV1 res expectedList.

(** The two expectations [mainListObjectsV1] builds (lines 132-153) from the
    registry and the name of the first bucket. *)
Definition objectInfoOf : list ObjectInfo := sortByKey objects.

Definition expectedListOf (bucketName : string) : listBucketResult :=
  {| Name := bucketName; Contents := objectInfoOf; CommonPrefixes := [];
     MaxKeys := 0; IsTruncated := false |}.

Definition expectedListMaxKeysOf (bucketName : string)
  : option listBucketResult :=
  match sliceTo 31 objectInfoOf with
  | Some firstObjects =>
      Some {| Name := bucketName; Contents := firstObjects;
              CommonPrefixes := []; MaxKeys := 30; IsTruncated := false |}
  | None => None
  end.

(** A request built by [newListObjectsV1Req] and sent by [execRequest]: the
    collaborators answer the query parameters with a response or an error. *)
Variable roundTrip : list (string * string) -> error + Response.

(** [mainListObjectsV1]: [Some true] when the test passes, [Some false] when
    it fails, [None] when the slice expression is outside the model. *)
Definition mainListObjectsV1 (bucketName : string) : option bool :=
  let expectedList := expectedListOf bucketName in
  match expectedListMaxKeysOf bucketName with
  | None => None
  | Some expectedListMaxKeys =>
      let maxKeysMap := [("max-keys", "30")] in
      match roundTrip [] with
      | inl _ => Some false
      | inr noParamRes =>
          match outcome (listObjectsV1Verify noParamRes "200 OK" expectedList) with
          | Some _ => Some false
          | None =>
              match roundTrip maxKeysMap with
              | inl _ => Some false
              | inr maxKeysRes =>
                  match outcome (listObjectsV1Verify maxKeysRes "200 OK"
                                   expectedListMaxKeys) with
                  | Some _ => Some false
                  | None => Some true
                  end
              end
          end
      end
  end.

End Verifier.

End ListObjectsV1.

(* ================================================================== *)
(** ** ListMultipartUploads ([list-multipart-uploads.go]) *)

Module ListMultipartUploads.

(** The condition of the inner [if] of [verifyBodyListMultipartUploads]. *)
Definition uploadMatches (receivedUpload expectedUpload : ObjectMultipartInfo)
  : bool :=
  (UploadSize receivedUpload =? UploadSize expectedUpload)%Z
  && (UploadID receivedUpload =? UploadID expectedUpload)
  && (UploadKey receivedUpload =? UploadKey expectedUpload).

Definition countUploads (received expected : list ObjectMultipartInfo) : nat :=
  fold_left
    (fun totalUploads receivedUpload =>
       fold_left
         (fun totalUploads expectedUpload =>
            if uploadMatches receivedUpload expectedUpload
            then S totalUploads else totalUploads)
         expected totalUploads)
    received 0.

Section Verifier.

(** [xmlDecoder] applied to a body and a [listMultipartUploadsResult]. *)
Variable decodeUploadsResult : string -> error + listMultipartUploadsResult.
Variable verifyStandardHeaders : Response -> option error.

Definition xmlDecoder (body : string) : Verify listMultipartUploadsResult :=
  emit EvDecodeBody ;;;
  match decodeUploadsResult body with
  | inl err => fail err
  | inr v => ret v
  end.

(** The body of the function is [return nil]. *)
Definition listMultipartUploadsVerify (res : Response)
    (expectedStatus : string) (expectedList : listMultipartUploadsResult)
  : Verify unit :=
  ret tt.

Definition verifyHeaderListMultipartUploads (res : Response) : Verify unit :=
  emit EvCheckHeaders ;;;
  match verifyStandardHeaders res with
  | Some err => fail err
  | None => ret tt
  end.

Definition verifyStatusListMultipartUploads (res : Response)
    (expectedStatus : string) : Verify unit :=
  if negb (Status res =? expectedStatus)
  then fail (UnexpectedStatus expectedStatus (Status res))
  else ret tt.

(** Lines 88-107: what the body check does once the body is decoded. *)
Definition compareListMultipartUploads
    (receivedList expectedList : listMultipartUploadsResult) : Verify unit :=
  if negb (length (Uploads receivedList) =? length (Uploads expectedList))%nat
  then fail (UnexpectedUploadCount (length (Uploads expectedList))
                                   (length (Uploads receivedList)))
  else
    let totalUploads :=
      countUploads (Uploads receivedList) (Uploads expectedList) in
    if negb (totalUploads =? length (Uploads expectedList))%nat
    then fail WrongMetaData
    else ret tt.

Definition verifyBodyListMultipartUploads (res : Response)
    (expectedList : listMultipartUploadsResult) : Verify unit :=
  receivedList <- xmlDecoder (Body res) ;;
  compareListMultipartUploads receivedList expectedList.

(** The expectation [mainListMultipartUploads] builds (lines 117-128) from the
    registry of multipart uploads: key and upload ID are copied, the size is
    left at its zero value. *)
Definition expectedListOf (bucketName : string)
    (multipartObjects : list ObjectMultipartInfo) : listMultipartUploadsResult :=
  {| Bucket := bucketName;
     Uploads := map (fun multipartObject =>
                       {| UploadKey := UploadKey multipartObject;
                          UploadID := UploadID multipartObject;
                          UploadSize := 0 |}) multipartObjects |}.

End Verifier.

End ListMultipartUploads.

(* ================================================================== *)
(** ** The region of the server configuration ([setRegion]) *)

Module Config.

Section SetRegion.

(** [url.URL] and [url.Parse] of the Go library. *)
Variable URL : Type.
Variable url_Parse : string -> error + URL.
(** Whether the endpoint is an Amazon host; defined elsewhere. *)
Variable isAmazonEndpoint : URL -> bool.
(** The constant [globalDefaultRegion]; defined elsewhere. *)
Variable globalDefaultRegion : string.

Definition withRegion (config : ServerConfig) (region : string) : ServerConfig :=
  {| Access := Access config; Secret := Secret config;
     Endpoint := Endpoint config; Region := region |}.

(** [setRegion] works on a pointer: the result is the configuration after the
    call together with the returned error. *)
Definition setRegion (config : ServerConfig) : ServerConfig * option error :=
  match url_Parse (Endpoint config) with
  | inl err => (config, Some err)
  | inr endpointURL =>
      if Region config =? EmptyString then
        if isAmazonEndpoint endpointURL
        then (withRegion config "us-west-1", None)
        else (withRegion config globalDefaultRegion, None)
      else (config, None)
  end.

End SetRegion.

End Config.

(* ================================================================== *)
(** ** Doubles for the collaborators and fixtures, for closed examples *)

Module Doubles.

(** A decoder given by a table from bodies to decoded results; a body that is
    not in the table is malformed. *)
Fixpoint decodeTable {A} (table : list (string * A)) (body : string)
  : error + A :=
  match table with
  | [] => inl (ExternalError "XML syntax error")
  | (b, v) :: table' => if b =? body then inr v else decodeTable table' body
  end.

(** A header check that accepts a response exactly when it carries a header
    of the given name. *)
Definition requireHeader (name : string) (res : Response) : option error :=
  if existsb (fun h => fst h =? name) (Header res) then None
  else Some (ExternalError ("missing header " ++ name)).

Definition stringOfNat (n : nat) : string :=
  NilZero.string_of_uint (Nat.to_uint n).

(** The [i]-th fixture object. *)
Definition fixtureObject (i : nat) : ObjectInfo :=
  {| Key := "s3verify-object-" ++ stringOfNat i;
     Size := Z.of_nat i;
     ETag := "etag" ++ stringOfNat i;
     LastModified := 0 |}.

Definition fixtureObjects (n : nat) : list ObjectInfo :=
  map fixtureObject (seq 0 n).

(** An entry as a server lists it: the ETag wrapped in double quotes. *)
Definition listed (o : ObjectInfo) : ObjectInfo :=
  {| Key := Key o; Size := Size o; ETag := dquote ++ ETag o ++ dquote;
     LastModified := LastModified o |}.

(** A parser for endpoints that rejects the empty string and otherwise takes
    the endpoint itself as the URL. *)
Definition parseEndpoint (s : string) : error + string :=
  if s =? EmptyString then inl (ExternalError "empty url") else inr s.

(** Whether [p] is a prefix of [s] is [String.prefix p s]; an endpoint counts
    as an Amazon host here when it starts with [https://s3.amazonaws.com]. *)
Definition amazonDouble (u : string) : bool :=
  String.prefix "https://s3.amazonaws.com" u.

(** A decoded listing, and an expectation with a max-keys limit. *)
Definition listing (name : string) (contents : list ObjectInfo)
  : listBucketResult :=
  {| Name := name; Contents := contents; CommonPrefixes := [];
     MaxKeys := 1000; IsTruncated := false |}.

Definition expecting (name : string) (contents : list ObjectInfo)
    (maxKeys : Z) : listBucketResult :=
  {| Name := name; Contents := contents; CommonPrefixes := [];
     MaxKeys := maxKeys; IsTruncated := false |}.

(** A response with the given status line and body, carrying a [Date]
    header. *)
Definition respond (status body : string) : Response :=
  {| Status := status;
     Header := [("Date", ["Thu, 01 Jan 2016 00:00:00 GMT"])];
     Body := body |}.

Definition objA : ObjectInfo := fixtureObject 0.
Definition objB : ObjectInfo := fixtureObject 1.
Definition objC : ObjectInfo := fixtureObject 2.

(** Bodies of the examples, with what they decode to. *)
Definition bodies : list (string * listBucketResult) :=
  [ ("<ListBucketResult>A B</ListBucketResult>",
     listing "s3verify-bucket" [listed objA; listed objB]);
    ("<ListBucketResult>B A</ListBucketResult>",
     listing "s3verify-bucket" [listed objB; listed objA]);
    ("<ListBucketResult>C</ListBucketResult>",
     listing "s3verify-bucket" [listed objC]);
    ("<ListBucketResult>A C</ListBucketResult>",
     listing "s3verify-bucket" [listed objA; listed objC]);
    ("<ListBucketResult></ListBucketResult>",
     listing "s3verify-bucket" []);
    ("<ListBucketResult>other: A B</ListBucketResult>",
     listing "other-bucket" [listed objA; listed objB]) ].

Definition decodeBodies : string -> error + listBucketResult :=
  decodeTable bodies.

(** A registry (and expectation) with the same object twice, and received
    entries with that object once and an unrelated object. *)
Definition twice : list ObjectInfo := [objA; objA].
Definition onceAndOther : list ObjectInfo := [listed objA; listed objC].

(** An in-flight multipart upload as the driver expects it (the size is
    left at zero), and bodies of upload listings with what they decode to. *)
Definition uploadA : ObjectMultipartInfo :=
  {| UploadKey := "s3verify-multipart-0"; UploadID := "upload-id-0";
     UploadSize := 0 |}.

Definition uploadBodies : list (string * listMultipartUploadsResult) :=
  [ ("<ListMultipartUploadsResult>A</ListMultipartUploadsResult>",
     {| Bucket := "s3verify-bucket"; Uploads := [uploadA] |});
    ("<ListMultipartUploadsResult>other: A</ListMultipartUploadsResult>",
     {| Bucket := "other-bucket"; Uploads := [uploadA] |}) ].

Definition decodeUploadBodies : string -> error + listMultipartUploadsResult :=
  decodeTable uploadBodies.

End Doubles.

(* ================================================================== *)
(** ** Notions used to state the properties *)

(** The number of entries of [expected] that [r] matches. *)
Definition matchesOf {A B} (matches : A -> B -> bool) (r : A)
    (expected : list B) : nat :=
  length (filter (matches r) expected).

(** Two nested loops over [received] and [expected] that count the pairs
    satisfying [matches]: the shape shared by [countListed] and
    [countUploads]. *)
Definition pairCount {A B} (matches : A -> B -> bool) (received : list A)
    (expected : list B) : nat :=
  fold_left
    (fun acc r =>
       fold_left (fun acc e => if matches r e then S acc else acc) expected acc)
    received 0.

(** Follows the specification's words: the received ETag normalized by
    removing the surrounding quote characters.  A double quote at the start
    is dropped, then a double quote at the end of what is left; a value
    without quotes is left as it is. *)
Definition dropLeadingQuote (s : string) : string :=
  match s with
  | EmptyString => EmptyString
  | String c s' => if Ascii.eqb c (ascii_of_nat 34) then s' else s
  end.

Fixpoint dropTrailingQuote (s : string) : string :=
  match s with
  | EmptyString => EmptyString
  | String c EmptyString =>
      if Ascii.eqb c (ascii_of_nat 34) then EmptyString else s
  | String c s' => String c (dropTrailingQuote s')
  end.

Definition normalizeETag (s : string) : string :=
  dropTrailingQuote (dropLeadingQuote s).

(** Follows the specification's words: a received entry matches an expected
    entry when the keys are equal, the sizes are equal and the normalized
    received ETag is the expected ETag. *)
Definition entryMatches_as_specified (receivedObject expectedObject : ObjectInfo)
  : bool :=
  (Key receivedObject =? Key expectedObject)
  && (Size receivedObject =? Size expectedObject)%Z
  && (normalizeETag (ETag receivedObject) =? ETag expectedObject).

(** Whether a value is wrapped in a pair of double quotes: two characters at
    least, the first and the last of them double quotes. *)
Fixpoint endsWithQuote (s : string) : bool :=
  match s with
  | EmptyString => false
  | String c EmptyString => Ascii.eqb c (ascii_of_nat 34)
  | String _ s' => endsWithQuote s'
  end.

Definition wrappedInQuotes (s : string) : bool :=
  match s with
  | EmptyString => false
  | String c s' => Ascii.eqb c (ascii_of_nat 34) && endsWithQuote s'
  end.

(** A received entry and an expected entry with the same key, the same size,
    and the expected ETag wrapped in double quotes as the received ETag;
    decided field by field. *)
Definition sameEntry (received expected : ObjectInfo) : Prop :=
  Key received = Key expected
  /\ Size received = Size expected
  /\ ETag received = (dquote ++ ETag expected ++ dquote)%string.

Definition sameEntryb (received expected : ObjectInfo) : bool :=
  if string_dec (Key received) (Key expected) then
    if Z.eq_dec (Size received) (Size expected) then
      if string_dec (ETag received) (dquote ++ ETag expected ++ dquote)%string
      then true else false
    else false
  else false.

(** The count of matching (received, expected) pairs, without the loops of
    the code: the pairs of the product of the two lists that are the same
    entry. *)
Definition matchingPairs (received expected : list ObjectInfo) : nat :=
  length (filter (fun p => sameEntryb (fst p) (snd p))
            (list_prod received expected)).

(** The fields of an entry that the comparison reads, and the fields under
    which a server lists an object: key, size and the ETag in double
    quotes. *)
Definition comparedFields (o : ObjectInfo) : string * Z * string :=
  (Key o, Size o, ETag o).

Definition listedFields (o : ObjectInfo) : string * Z * string :=
  (Key o, Size o, (dquote ++ ETag o ++ dquote)%string).

(** Pairings between the positions of the received entries and the positions
    of the expected entries: every pair joins a received entry with an
    expected entry it matches, and no position occurs twice on either side. *)
Definition pairing (received expected : list ObjectInfo)
    (p : list (nat * nat)) : Prop :=
  NoDup (map fst p) /\ NoDup (map snd p) /\
  forall i j, In (i, j) p ->
    exists r e, nth_error received i = Some r /\ nth_error expected j = Some e
                /\ ListObjectsV1.entryMatches r e = true.

(** The pairing leaves no received entry out. *)
Definition coversReceived (received : list ObjectInfo) (p : list (nat * nat))
  : Prop :=
  forall i, i < length received -> In i (map fst p).

(** The pairing leaves no expected entry out. *)
Definition coversExpected (expected : list ObjectInfo) (p : list (nat * nat))
  : Prop :=
  forall j, j < length expected -> In j (map snd p).

(** Two entries of the list, at different positions, with the same key, size
    and ETag. *)
Definition hasDuplicate (l : list ObjectInfo) : Prop :=
  exists i j a b, i <> j /\ nth_error l i = Some a /\ nth_error l j = Some b
    /\ Key a = Key b /\ Size a = Size b /\ ETag a = ETag b.

(* ================================================================== *)
(** ** Building the requests ([newListObjectsV1Req],
       [newListMultipartUploadsReq]) *)

Module Requests.

(** [url.Values]: a map from parameter names to lists of values, kept as an
    association list with one binding for each name. *)
Definition Values : Type := list (string * list string).

(** [Values.Set(key, value)]: [v[key] = []string{value}]. *)
Definition valuesSet (key value : string) (v : Values) : Values :=
  (key, [value]) :: filter (fun kv => negb (fst kv =? key)) v.

(** [v[key]]. *)
Fixpoint valuesGet (key : string) (v : Values) : option (list string) :=
  match v with
  | [] => None
  | (k, vs) :: v' => if k =? key then Some vs else valuesGet key v'
  end.

(** The loop [for k, v := range parameters { urlValues.Set(k, v) }] over a
    Go map, the list giving the bindings in the order the loop meets them. *)
Definition urlValuesOf (parameters : list (string * string)) : Values :=
  fold_left (fun urlValues kv => valuesSet (fst kv) (snd kv) urlValues)
    parameters [].

Section Builders.

(** [*url.URL]. *)
Variable URL : Type.

(** The part of [http.Request] the builders fill in. *)
Record Request : Type := mkRequest {
  Method : string;
  ReqHeader : Values;
  ReqURL : option URL;
  ReqBody : option string
}.

(** The collaborators: the target URL builder, the content-hash computer
    (MD5 sum, SHA-256 sum and size of the stream), [hex.EncodeToString] and
    the request signer. *)
Variable makeTargetURL :
  string -> string -> string -> string -> Values -> error + URL.
Variable computeHash : string -> error + (string * string * Z).
Variable hexEncodeToString : string -> string.
Variable SignV4 : Request -> string -> string -> string -> Request.

Definition newListObjectsV1Req (config : ServerConfig) (bucketName : string)
    (parameters : list (string * string)) : error + Request :=
  let urlValues := urlValuesOf parameters in
  match makeTargetURL (Endpoint config) bucketName EmptyString (Region config)
          urlValues with
  | inl err => inl err
  | inr targetURL =>
      match computeHash EmptyString with
      | inl err => inl err
      | inr (_, sha256Sum, _) =>
          let listObjectsV1Req :=
            {| Method := "GET";
               ReqHeader := valuesSet "X-Amz-Content-Sha256"
                              (hexEncodeToString sha256Sum) [];
               ReqURL := Some targetURL;
               ReqBody := None |} in
          inr (SignV4 listObjectsV1Req (Access config) (Secret config)
                 (Region config))
      end
  end.

Definition newListMultipartUploadsReq (config : ServerConfig)
    (bucketName : string) : error + Request :=
  let urlValues := valuesSet "uploads" EmptyString [] in
  match makeTargetURL (Endpoint config) bucketName EmptyString (Region config)
          urlValues with
  | inl err => inl err
  | inr targetURL =>
      match computeHash EmptyString with
      | inl err => inl err
      | inr (_, sha256Sum, _) =>
          let listMultipartUploadsReq :=
            {| Method := "GET";
               ReqHeader := valuesSet "X-Amz-Content-Sha256"
                              (hexEncodeToString sha256Sum) [];
               ReqURL := Some targetURL;
               ReqBody := None |} in
          inr (SignV4 listMultipartUploadsReq (Access config) (Secret config)
                 (Region config))
      end
  end.

(** [execRequest(req, config.Client, bucketName, objectName)]. *)
Variable execRequest : Request -> string -> string -> error + Response.

(** [mainListMultipartUploads]: whether the test passes, for the registry
    [multipartObjects] and the name of the first bucket. *)
Definition mainListMultipartUploads (config : ServerConfig)
    (bucketName : string) (multipartObjects : list ObjectMultipartInfo) : bool :=
  let expectedList :=
    ListMultipartUploads.expectedListOf bucketName multipartObjects in
  match newListMultipartUploadsReq config bucketName with
  | inl _ => false
  | inr req =>
      match execRequest req bucketName EmptyString with
      | inl _ => false
      | inr res =>
          match outcome (ListMultipartUploads.listMultipartUploadsVerify res
                           "200 OK" expectedList) with
          | Some _ => false
          | None => true
          end
      end
  end.

End Builders.

End Requests.

(* ================================================================== *)
(** ** Further notions and doubles *)

(** Whether the strings of a list are pairwise different. *)
Fixpoint distinctb (l : list string) : bool :=
  match l with
  | [] => true
  | x :: l' => negb (existsb (String.eqb x) l') && distinctb l'
  end.

(** The number of entries of [received] that match [e]. *)
Definition matchedBy {A B} (matches : A -> B -> bool) (e : B)
    (received : list A) : nat :=
  length (filter (fun r => matches r e) received).

(** What a passing response to the request without parameters is, and what a
    passing response to the request with [max-keys=30] is, in terms of the
    decoded body. *)
Definition passesAll (decodeBucketResult : string -> error + listBucketResult)
    (verifyStandardHeaders : Response -> option error)
    (objects : list ObjectInfo) (bucketName : string) (res : Response) : Prop :=
  Status res = "200 OK"
  /\ (exists receivedList,
        decodeBucketResult (Body res) = inr receivedList
        /\ Name receivedList = bucketName
        /\ ListObjectsV1.countListed (Contents receivedList)
             (ListObjectsV1.sortByKey objects)
           = length objects)
  /\ verifyStandardHeaders res = None.

Definition passesLimit (decodeBucketResult : string -> error + listBucketResult)
    (verifyStandardHeaders : Response -> option error)
    (bucketName : string) (res : Response) : Prop :=
  Status res = "200 OK"
  /\ (exists receivedList,
        decodeBucketResult (Body res) = inr receivedList
        /\ Name receivedList = bucketName
        /\ length (Contents receivedList)
           + length (CommonPrefixes receivedList) = 30)
  /\ verifyStandardHeaders res = None.

Module MoreDoubles.

Import Doubles.

(** A registry of 45 objects, the body of a full listing of it and the body
    of a listing of 30 entries, with what they decode to. *)
Definition registry : list ObjectInfo := fixtureObjects 45.

Definition fullListing : listBucketResult :=
  listing "s3verify-bucket" (map listed registry).

Definition limitedListing : listBucketResult :=
  {| Name := "s3verify-bucket";
     Contents := map listed (firstn 28 registry);
     CommonPrefixes := [mkCommonPrefix "photos/"; mkCommonPrefix "videos/"];
     MaxKeys := 30; IsTruncated := true |}.

Definition driverBodies : list (string * listBucketResult) :=
  [ ("<ListBucketResult>all 45</ListBucketResult>", fullListing);
    ("<ListBucketResult>30 of 45</ListBucketResult>", limitedListing) ].

Definition decodeDriverBodies : string -> error + listBucketResult :=
  decodeTable driverBodies.


(** An entry as a server lists it, with the server's own time of last
    modification; bodies holding such entries, with what they decode to, and
    a server that honours [max-keys] and answers with them. *)
Definition served (o : ObjectInfo) : ObjectInfo :=
  {| Key := Key o; Size := Size o;
     ETag := (dquote ++ ETag o ++ dquote)%string;
     LastModified := 1477958400 + Size o |}.

Definition servedBodies : list (string * listBucketResult) :=
  [ ("<ListBucketResult>B A, server times</ListBucketResult>",
     listing "s3verify-bucket" [served objB; served objA]);
    ("<ListBucketResult>all 45, server times</ListBucketResult>",
     listing "s3verify-bucket" (map served registry));
    ("<ListBucketResult>30 of 45</ListBucketResult>", limitedListing) ].

Definition decodeServedBodies : string -> error + listBucketResult :=
  decodeTable servedBodies.

Definition timestampingServer (parameters : list (string * string))
  : error + Response :=
  match parameters with
  | [] => inr (respond "200 OK"
                 "<ListBucketResult>all 45, server times</ListBucketResult>")
  | _ => inr (respond "200 OK" "<ListBucketResult>30 of 45</ListBucketResult>")
  end.

(** A server that answers every request with the full listing. *)
Definition ignoringServer (parameters : list (string * string))
  : error + Response :=
  inr (respond "200 OK" "<ListBucketResult>all 45</ListBucketResult>").

(** Uploads and upload listings. *)
Definition uploadB : ObjectMultipartInfo :=
  {| UploadKey := "s3verify-multipart-1"; UploadID := "upload-id-1";
     UploadSize := 0 |}.

Definition moreUploadBodies : list (string * listMultipartUploadsResult) :=
  [ ("<ListMultipartUploadsResult>A B</ListMultipartUploadsResult>",
     {| Bucket := "s3verify-bucket"; Uploads := [uploadA; uploadB] |});
    ("<ListMultipartUploadsResult>B A</ListMultipartUploadsResult>",
     {| Bucket := "s3verify-bucket"; Uploads := [uploadB; uploadA] |});
    ("<ListMultipartUploadsResult>A</ListMultipartUploadsResult>",
     {| Bucket := "s3verify-bucket"; Uploads := [uploadA] |});
    ("<ListMultipartUploadsResult>A, 5 bytes</ListMultipartUploadsResult>",
     {| Bucket := "s3verify-bucket";
        Uploads := [ {| UploadKey := "s3verify-multipart-0";
                        UploadID := "upload-id-0"; UploadSize := 5 |} ] |}) ].

Definition decodeMoreUploadBodies
  : string -> error + listMultipartUploadsResult :=
  decodeTable moreUploadBodies.

(** Doubles for the collaborators of the request builders, with strings for
    URLs. *)
Definition targetURLDouble (endpoint bucketName objectName region : string)
    (urlValues : Requests.Values) : error + string :=
  if endpoint =? EmptyString then inl (ExternalError "invalid endpoint")
  else inr (endpoint ++ "/" ++ bucketName ++ "/" ++ objectName)%string.

Definition computeHashDouble (stream : string) : error + (string * string * Z) :=
  inr ("md5", "sha256", Z.of_nat (String.length stream)).

Definition signDouble (req : Requests.Request string)
    (access secret region : string) : Requests.Request string :=
  Requests.mkRequest (Requests.Method req)
    (Requests.valuesSet "Authorization" ("AWS4-HMAC-SHA256 " ++ access)%string
       (Requests.ReqHeader req))
    (Requests.ReqURL req) (Requests.ReqBody req).

Definition execDouble (req : Requests.Request string)
    (bucketName objectName : string) : error + Response :=
  inr (respond "500 Internal Server Error" "<Error></Error>").

Definition sampleConfig : ServerConfig :=
  mkServerConfig "access" "secret" "https://play.minio.io:9000" "us-east-1".

End MoreDoubles.

(* ================================================================== *)
(** ** Counting matching pairs *)

Section Counting.

Variables (A B : Type) (matches : A -> B -> bool).

Lemma inner_loop (r : A) (expected : list B) (acc : nat) :
  fold_left (fun acc e => if matches r e then S acc else acc) expected acc
  = acc + matchesOf matches r expected.
Proof.
  unfold matchesOf. revert acc.
  induction expected as [|e expected IH]; intro acc; simpl.
  - lia.
  - rewrite IH. destruct (matches r e); simpl; lia.
Qed.

Lemma outer_loop (received : list A) (expected : list B) (acc : nat) :
  fold_left
    (fun acc r =>
       fold_left (fun acc e => if matches r e then S acc else acc) expected acc)
    received acc
  = acc + list_sum (map (fun r => matchesOf matches r expected) received).
Proof.
  revert acc.
  induction received as [|r received IH]; intro acc; simpl.
  - lia.
  - rewrite IH, inner_loop. lia.
Qed.

Lemma pairCount_sum (received : list A) (expected : list B) :
  pairCount matches received expected
  = list_sum (map (fun r => matchesOf matches r expected) received).
Proof. unfold pairCount. now rewrite outer_loop. Qed.

Lemma list_sum_perm (l l' : list nat) :
  Permutation l l' -> list_sum l = list_sum l'.
Proof.
  induction 1 as [| x l l' _ IH | x y l | l l' l'' _ IH1 _ IH2]; simpl; lia.
Qed.

Lemma pairCount_perm (received received' : list A) (expected : list B) :
  Permutation received received' ->
  pairCount matches received expected = pairCount matches received' expected.
Proof.
  intro HP. rewrite !pairCount_sum.
  apply list_sum_perm. now apply Permutation_map.
Qed.

End Counting.

Lemma countListed_pairCount (received expected : list ObjectInfo) :
  ListObjectsV1.countListed received expected
  = pairCount ListObjectsV1.entryMatches received expected.
Proof. reflexivity. Qed.

Lemma countListed_perm (received received' expected : list ObjectInfo) :
  Permutation received received' ->
  ListObjectsV1.countListed received expected
  = ListObjectsV1.countListed received' expected.
Proof. rewrite !countListed_pairCount. apply pairCount_perm. Qed.

Lemma countUploads_pairCount (received expected : list ObjectMultipartInfo) :
  ListMultipartUploads.countUploads received expected
  = pairCount ListMultipartUploads.uploadMatches received expected.
Proof. reflexivity. Qed.

(** The condition of the code holds exactly for the same entry. *)
Lemma entryMatches_sameEntry (r e : ObjectInfo) :
  ListObjectsV1.entryMatches r e = true <-> sameEntry r e.
Proof.
  unfold ListObjectsV1.entryMatches, sameEntry.
  now rewrite !andb_true_iff, String.eqb_eq, Z.eqb_eq, String.eqb_eq.
Qed.

Lemma sameEntryb_sameEntry (r e : ObjectInfo) :
  sameEntryb r e = true <-> sameEntry r e.
Proof.
  unfold sameEntryb, sameEntry.
  destruct (string_dec (Key r) (Key e));
    [destruct (Z.eq_dec (Size r) (Size e));
       [destruct (string_dec (ETag r) (dquote ++ ETag e ++ dquote))|]|];
    split; try discriminate; try tauto; intros (? & ? & ?); contradiction.
Qed.

Lemma entryMatches_sameEntryb (r e : ObjectInfo) :
  ListObjectsV1.entryMatches r e = sameEntryb r e.
Proof.
  destruct (ListObjectsV1.entryMatches r e) eqn:Hm, (sameEntryb r e) eqn:Hs;
    try reflexivity.
  - apply entryMatches_sameEntry, sameEntryb_sameEntry in Hm. congruence.
  - apply sameEntryb_sameEntry, entryMatches_sameEntry in Hs. congruence.
Qed.

Lemma filter_pairs_with {A B} (f : A * B -> bool) (x : A) (l : list B) :
  length (filter f (map (fun y => (x, y)) l))
  = length (filter (fun y => f (x, y)) l).
Proof.
  induction l as [|y l IH]; simpl; [reflexivity|].
  destruct (f (x, y)); simpl; now rewrite IH.
Qed.

(** The two nested loops count the pairs of the product of the two lists
    that are the same entry. *)
Lemma countListed_matchingPairs (received expected : list ObjectInfo) :
  ListObjectsV1.countListed received expected = matchingPairs received expected.
Proof.
  rewrite countListed_pairCount, pairCount_sum. unfold matchingPairs.
  induction received as [|r received IH]; simpl; [reflexivity|].
  rewrite filter_app, length_app, filter_pairs_with, IH. f_equal.
  unfold matchesOf. f_equal. apply filter_ext.
  intro e. apply entryMatches_sameEntryb.
Qed.

(* ================================================================== *)
(** ** The body check of ListObjects V1 *)

Section BodyListObjectsV1.

Import ListObjectsV1.

Variable decodeBucketResult : string -> error + listBucketResult.
Variable objects : list ObjectInfo.


(** The comparison decides without calling a collaborator. *)
Lemma compare_log (receivedList expectedList : listBucketResult)
    (log : list event) :
  compareListObjectsV1 objects receivedList expectedList log
  = (log, snd (compareListObjectsV1 objects receivedList expectedList [])).
Proof.
  unfold compareListObjectsV1.
  repeat match goal with |- context [if ?b then _ else _] => destruct b end;
    reflexivity.
Qed.

Lemma verifyBody_decoded (res : Response) (receivedList expectedList : listBucketResult) :
  decodeBucketResult (Body res) = inr receivedList ->
  run (verifyBodyListObjectsV1 decodeBucketResult objects res expectedList)
  = ([EvDecodeBody], outcome (compareListObjectsV1 objects receivedList expectedList)).
Proof.
  intro Hdec.
  unfold run at 1, verifyBodyListObjectsV1, xmlDecoder, bind, emit. simpl.
  rewrite Hdec. unfold ret at 1.
  rewrite compare_log. unfold outcome, run.
  rewrite (compare_log _ _ []). simpl.
  destruct (snd (compareListObjectsV1 objects receivedList expectedList [])); reflexivity.
Qed.

Lemma verifyBody_malformed (res : Response) (expectedList : listBucketResult)
    (err : error) :
  decodeBucketResult (Body res) = inl err ->
  run (verifyBodyListObjectsV1 decodeBucketResult objects res expectedList) = ([EvDecodeBody], Some err).
Proof.
  intro Hdec.
  unfold run, verifyBodyListObjectsV1, xmlDecoder, bind, emit. simpl.
  now rewrite Hdec.
Qed.

Lemma verifyBody_calls (res : Response) (expectedList : listBucketResult) :
  calls (verifyBodyListObjectsV1 decodeBucketResult objects res expectedList) = [EvDecodeBody].
Proof.
  unfold calls.
  destruct (decodeBucketResult (Body res)) as [err|r] eqn:Hdec.
  - now rewrite (verifyBody_malformed _ _ Hdec).
  - now rewrite (verifyBody_decoded _ expectedList Hdec).
Qed.

(** The outcome of the comparison, branch by branch. *)
Lemma compare_bucket (receivedList expectedList : listBucketResult) :
  Name receivedList <> Name expectedList ->
  outcome (compareListObjectsV1 objects receivedList expectedList)
  = Some (UnexpectedBucket (Name expectedList) (Name receivedList)).
Proof.
  intro Hne. unfold outcome, run, compareListObjectsV1.
  apply String.eqb_neq in Hne. now rewrite Hne.
Qed.

Lemma compare_maxkeys (receivedList expectedList : listBucketResult) :
  Name receivedList = Name expectedList ->
  MaxKeys expectedList <> 0%Z ->
  outcome (compareListObjectsV1 objects receivedList expectedList)
  = let n := Z.of_nat (length (Contents receivedList)
                       + length (CommonPrefixes receivedList)) in
    if (MaxKeys expectedList =? n)%Z then None
    else Some (UnexpectedObjectCount (MaxKeys expectedList) n).
Proof.
  intros Hname Hmk. unfold outcome, run, compareListObjectsV1.
  apply String.eqb_eq in Hname. rewrite Hname.
  apply Z.eqb_neq in Hmk. rewrite Hmk. cbn [negb]. cbv zeta.
  clear Hmk. destruct (MaxKeys expectedList =? _)%Z; reflexivity.
Qed.

Lemma compare_all (receivedList expectedList : listBucketResult) :
  Name receivedList = Name expectedList ->
  MaxKeys expectedList = 0%Z ->
  outcome (compareListObjectsV1 objects receivedList expectedList)
  = let listedObjects :=
      countListed (Contents receivedList) (Contents expectedList) in
    if (length objects =? listedObjects)%nat then None
    else Some (UnexpectedObjectCount (Z.of_nat (length objects))
                                     (Z.of_nat listedObjects)).
Proof.
  intros Hname Hmk. unfold outcome, run, compareListObjectsV1.
  apply String.eqb_eq in Hname. rewrite Hname.
  rewrite Hmk. cbn [Z.eqb negb]. cbv zeta.
  destruct (length objects =? _)%nat; reflexivity.
Qed.

(** Success without a max-keys limit: the body decoded, the bucket name
    agreed and the matching pairs are as many as the objects of the
    registry. *)
Lemma verifyBody_success_all (res : Response) (expectedList : listBucketResult) :
  MaxKeys expectedList = 0%Z ->
  outcome (verifyBodyListObjectsV1 decodeBucketResult objects res expectedList)
    = None ->
  exists receivedList,
    decodeBucketResult (Body res) = inr receivedList
    /\ Name receivedList = Name expectedList
    /\ countListed (Contents receivedList) (Contents expectedList)
       = length objects.
Proof.
  intro Hmk. unfold outcome.
  destruct (decodeBucketResult (Body res)) as [err|r] eqn:Hdec.
  - rewrite (verifyBody_malformed _ _ Hdec). discriminate.
  - rewrite (verifyBody_decoded _ expectedList Hdec). simpl.
    intro Hnone. exists r. split; [reflexivity|].
    destruct (String.eqb_spec (Name r) (Name expectedList)) as [Hname|Hname].
    + split; [exact Hname|].
      rewrite (compare_all _ _ Hname Hmk) in Hnone. cbv zeta in Hnone.
      destruct (Nat.eqb_spec (length objects)
                  (countListed (Contents r) (Contents expectedList)));
        [congruence | discriminate].
    + rewrite (compare_bucket _ _ Hname) in Hnone. discriminate.
Qed.

End BodyListObjectsV1.

(* ================================================================== *)
(** ** Properties of the body check of ListObjects V1 *)

Section BodyProperties.

Import ListObjectsV1.

Variable decodeBucketResult : string -> error + listBucketResult.
Variable objects : list ObjectInfo.

(** C3, as amended.  When the expected list has no max-keys limit,
    [verifyBodyListObjectsV1] succeeds only if the body decodes, names the
    expected bucket, and the count of matching (received, expected) pairs
    equals the size of the registry [objects]; when the body decodes and
    names the expected bucket but that count differs from the size of the
    registry, it returns the count error carrying the registry size and the
    count of matching pairs.  With a max-keys limit the result depends
    neither on the expected entries nor on the registry, hence not on the
    count of matching pairs: other expected entries and another registry,
    under the same bucket name and limit, give the same result. *)
Theorem verifyBodyListObjectsV1_counts_against_registry
    (res : Response) (expectedList : listBucketResult) :
  (MaxKeys expectedList = 0%Z ->
   outcome (verifyBodyListObjectsV1 decodeBucketResult objects res expectedList)
     = None ->
   exists receivedList,
     decodeBucketResult (Body res) = inr receivedList /\
     Name receivedList = Name expectedList /\
     matchingPairs (Contents receivedList) (Contents expectedList)
       = length objects)
  /\
  (MaxKeys expectedList = 0%Z ->
   forall receivedList,
     decodeBucketResult (Body res) = inr receivedList ->
     Name receivedList = Name expectedList ->
     matchingPairs (Contents receivedList) (Contents expectedList)
       <> length objects ->
     outcome (verifyBodyListObjectsV1 decodeBucketResult objects res expectedList)
     = Some (UnexpectedObjectCount
               (Z.of_nat (length objects))
               (Z.of_nat (matchingPairs (Contents receivedList)
                                        (Contents expectedList)))))
  /\
  (MaxKeys expectedList <> 0%Z ->
   forall (objects' : list ObjectInfo) (expectedList' : listBucketResult),
     Name expectedList' = Name expectedList ->
     MaxKeys expectedList' = MaxKeys expectedList ->
     run (verifyBodyListObjectsV1 decodeBucketResult objects' res expectedList')
     = run (verifyBodyListObjectsV1 decodeBucketResult objects res
              expectedList)).
Proof.
  split; [|split].
  - intros Hmk Hnone.
    destruct (verifyBody_success_all _ _ _ _ Hmk Hnone)
      as (r & Hdec & Hname & Hcount).
    exists r. now rewrite <- countListed_matchingPairs.
  - intros Hmk r Hdec Hname Hcount. unfold outcome.
    rewrite <- countListed_matchingPairs in *.
    rewrite (verifyBody_decoded _ objects _ expectedList Hdec). simpl.
    rewrite (compare_all objects _ _ Hname Hmk). cbv zeta.
    destruct (Nat.eqb_spec (length objects)
                (countListed (Contents r) (Contents expectedList)));
      [congruence | reflexivity].
  - intros Hmk objects' expectedList' Hname' Hmk'.
    destruct (decodeBucketResult (Body res)) as [err|r] eqn:Hdec.
    + now rewrite !(verifyBody_malformed _ _ _ _ Hdec).
    + rewrite (verifyBody_decoded _ objects _ expectedList Hdec).
      rewrite (verifyBody_decoded _ objects' _ expectedList' Hdec).
      f_equal.
      destruct (String.eqb_spec (Name r) (Name expectedList)) as [Hname|Hname].
      * assert (Hname2 : Name r = Name expectedList') by congruence.
        assert (Hmk2 : MaxKeys expectedList' <> 0%Z) by congruence.
        rewrite (compare_maxkeys objects _ _ Hname Hmk).
        rewrite (compare_maxkeys objects' _ _ Hname2 Hmk2).
        cbv zeta. now rewrite Hmk'.
      * assert (Hname2 : Name r <> Name expectedList') by congruence.
        rewrite (compare_bucket objects _ _ Hname).
        rewrite (compare_bucket objects' _ _ Hname2).
        now rewrite Hname'.
Qed.

(** C5.  Permuting the received [Contents] sequence does not change what
    [verifyBodyListObjectsV1] does: two responses whose decoded bodies differ
    only by the order of [Contents] give the same calls and the same outcome
    (success, or the very same error). *)
Theorem verifyBodyListObjectsV1_permutation
    (res res' : Response) (receivedList receivedList' expectedList : listBucketResult) :
  decodeBucketResult (Body res) = inr receivedList ->
  decodeBucketResult (Body res') = inr receivedList' ->
  Name receivedList' = Name receivedList ->
  CommonPrefixes receivedList' = CommonPrefixes receivedList ->
  Permutation (Contents receivedList) (Contents receivedList') ->
  run (verifyBodyListObjectsV1 decodeBucketResult objects res' expectedList)
  = run (verifyBodyListObjectsV1 decodeBucketResult objects res expectedList).
Proof.
  intros Hdec Hdec' Hname Hcp Hperm.
  rewrite (verifyBody_decoded _ objects _ expectedList Hdec).
  rewrite (verifyBody_decoded _ objects _ expectedList Hdec').
  f_equal.
  unfold outcome, run, compareListObjectsV1.
  rewrite Hname, Hcp, <- (Permutation_length Hperm).
  now rewrite <- (countListed_perm (Contents expectedList) Hperm).
Qed.

(** C6.  Once the body is decoded and the bucket name agrees: with a nonzero
    [MaxKeys] the check returns an error exactly when the number of received
    entries ([Contents] plus [CommonPrefixes]) differs from [MaxKeys]; with
    [MaxKeys] zero it succeeds exactly when the count of matching entries
    (the pairs of a received and an expected entry with the same key, the
    same size and the expected ETag in quotes) equals the size of the
    registry [objects]. *)
Theorem verifyBodyListObjectsV1_count_rule
    (res : Response) (receivedList expectedList : listBucketResult) :
  decodeBucketResult (Body res) = inr receivedList ->
  Name receivedList = Name expectedList ->
  (MaxKeys expectedList <> 0%Z ->
   ((exists err,
       outcome (verifyBodyListObjectsV1 decodeBucketResult objects res expectedList)
       = Some err)
    <-> MaxKeys expectedList
        <> Z.of_nat (length (Contents receivedList)
                     + length (CommonPrefixes receivedList))))
  /\
  (MaxKeys expectedList = 0%Z ->
   (outcome (verifyBodyListObjectsV1 decodeBucketResult objects res expectedList)
      = None
    <-> matchingPairs (Contents receivedList) (Contents expectedList)
        = length objects)).
Proof.
  intros Hdec Hname. unfold outcome.
  rewrite <- countListed_matchingPairs.
  rewrite (verifyBody_decoded _ objects _ expectedList Hdec). simpl.
  split; intro Hmk.
  - rewrite (compare_maxkeys objects _ _ Hname Hmk). cbv zeta.
    destruct (Z.eqb_spec (MaxKeys expectedList)
                (Z.of_nat (length (Contents receivedList)
                           + length (CommonPrefixes receivedList)))) as [He|He].
    + split; [intros [err Herr]; discriminate | intro Hne; contradiction].
    + split; [intros _; exact He | intros _; eexists; reflexivity].
  - rewrite (compare_all objects _ _ Hname Hmk). cbv zeta.
    destruct (Nat.eqb_spec (length objects)
                (countListed (Contents receivedList) (Contents expectedList)))
      as [He|He].
    + split; [intros _; now symmetry | reflexivity].
    + split; [discriminate | intro Heq; symmetry in Heq; contradiction].
Qed.

(** The bucket check of ListObjects V1: a decoded body whose bucket
    name differs from the expected one is rejected with the bucket error,
    whatever its entries. *)
Lemma verifyBodyListObjectsV1_bucket
    (res : Response) (receivedList expectedList : listBucketResult) :
  decodeBucketResult (Body res) = inr receivedList ->
  Name receivedList <> Name expectedList ->
  outcome (verifyBodyListObjectsV1 decodeBucketResult objects res expectedList)
  = Some (UnexpectedBucket (Name expectedList) (Name receivedList)).
Proof.
  intros Hdec Hname. unfold outcome.
  rewrite (verifyBody_decoded _ objects _ expectedList Hdec). simpl.
  now apply compare_bucket.
Qed.

End BodyProperties.

(* ------------------------------------------------------------------ *)
(** *** Closed instances *)

Module BodyExamples.

Import ListObjectsV1 Doubles.

(** C3 as stated fails.  With a max-keys limit of 1 the check accepts a body
    whose only entry matches no expected entry (0 matching pairs, 1 expected
    entry); without a limit the count is compared with the size of the
    registry, not with the number of expected entries. *)
Lemma verifyBodyListObjectsV1_not_count_of_expected :
  (outcome (verifyBodyListObjectsV1 decodeBodies [objA]
              (respond "200 OK" "<ListBucketResult>C</ListBucketResult>")
              (expecting "s3verify-bucket" [objA] 1)) = None
   /\ decodeBodies "<ListBucketResult>C</ListBucketResult>"
      = inr (listing "s3verify-bucket" [listed objC])
   /\ matchingPairs [listed objC] [objA] = 0
   /\ length [objA] = 1)
  /\
  (outcome (verifyBodyListObjectsV1 decodeBodies []
              (respond "200 OK" "<ListBucketResult></ListBucketResult>")
              (expecting "s3verify-bucket" [objA] 0)) = None
   /\ decodeBodies "<ListBucketResult></ListBucketResult>"
      = inr (listing "s3verify-bucket" [])
   /\ matchingPairs [] [objA] = 0
   /\ length [objA] = 1).
Proof. repeat split; vm_compute; reflexivity. Qed.

Lemma verifyBodyListObjectsV1_counts_against_registry_witness :
  (MaxKeys (expecting "s3verify-bucket" [objA; objB] 0) = 0%Z
   /\ decodeBodies "<ListBucketResult>C</ListBucketResult>"
      = inr (listing "s3verify-bucket" [listed objC])
   /\ matchingPairs [listed objC] [objA; objB] <> 2
   /\ outcome (verifyBodyListObjectsV1 decodeBodies [objA; objB]
                 (respond "200 OK" "<ListBucketResult>C</ListBucketResult>")
                 (expecting "s3verify-bucket" [objA; objB] 0))
      = Some (UnexpectedObjectCount 2 0))
  /\
  (MaxKeys (expecting "s3verify-bucket" [objA; objB] 1) <> 0%Z
   /\ run (verifyBodyListObjectsV1 decodeBodies []
             (respond "200 OK" "<ListBucketResult>C</ListBucketResult>")
             (expecting "s3verify-bucket" [objC] 1))
      = run (verifyBodyListObjectsV1 decodeBodies [objA; objB]
               (respond "200 OK" "<ListBucketResult>C</ListBucketResult>")
               (expecting "s3verify-bucket" [objA; objB] 1))).
Proof.
  assert (Hcount : matchingPairs [listed objC] [objA; objB] <> 2)
    by (vm_compute; discriminate).
  split.
  - split; [reflexivity|]. split; [reflexivity|]. split; [exact Hcount|].
    exact (proj1 (proj2
             (verifyBodyListObjectsV1_counts_against_registry decodeBodies
                [objA; objB]
                (respond "200 OK" "<ListBucketResult>C</ListBucketResult>")
                (expecting "s3verify-bucket" [objA; objB] 0)))
             eq_refl (listing "s3verify-bucket" [listed objC])
             eq_refl eq_refl Hcount).
  - assert (Hmk : MaxKeys (expecting "s3verify-bucket" [objA; objB] 1) <> 0%Z)
      by discriminate.
    split; [exact Hmk|].
    exact (proj2 (proj2
             (verifyBodyListObjectsV1_counts_against_registry decodeBodies
                [objA; objB]
                (respond "200 OK" "<ListBucketResult>C</ListBucketResult>")
                (expecting "s3verify-bucket" [objA; objB] 1)))
             Hmk [] (expecting "s3verify-bucket" [objC] 1) eq_refl eq_refl).
Defined.

Lemma verifyBodyListObjectsV1_permutation_witness :
  Permutation [listed objA; listed objB] [listed objB; listed objA]
  /\ run (verifyBodyListObjectsV1 decodeBodies [objA; objB]
            (respond "200 OK" "<ListBucketResult>B A</ListBucketResult>")
            (expecting "s3verify-bucket" [objA; objB] 0))
     = run (verifyBodyListObjectsV1 decodeBodies [objA; objB]
              (respond "200 OK" "<ListBucketResult>A B</ListBucketResult>")
              (expecting "s3verify-bucket" [objA; objB] 0)).
Proof.
  split; [apply perm_swap|].
  apply (verifyBodyListObjectsV1_permutation decodeBodies [objA; objB]
           (respond "200 OK" "<ListBucketResult>A B</ListBucketResult>")
           (respond "200 OK" "<ListBucketResult>B A</ListBucketResult>")
           (receivedList := listing "s3verify-bucket" [listed objA; listed objB])
           (receivedList' := listing "s3verify-bucket" [listed objB; listed objA])
           (expecting "s3verify-bucket" [objA; objB] 0));
    try reflexivity.
  apply perm_swap.
Defined.

Lemma verifyBodyListObjectsV1_count_rule_witness :
  ((30 <> 0)%Z
   /\ ((exists err,
          outcome (verifyBodyListObjectsV1 decodeBodies [objA; objB]
                     (respond "200 OK" "<ListBucketResult>A B</ListBucketResult>")
                     (expecting "s3verify-bucket" [objA; objB] 30))
          = Some err)
       <-> 30%Z <> Z.of_nat (2 + 0)))
  /\
  (matchingPairs [listed objA; listed objB] [objA; objB] = 2
   /\ outcome (verifyBodyListObjectsV1 decodeBodies [objA; objB]
                 (respond "200 OK" "<ListBucketResult>A B</ListBucketResult>")
                 (expecting "s3verify-bucket" [objA; objB] 0))
      = None).
Proof.
  split.
  - split; [discriminate|].
    apply (verifyBodyListObjectsV1_count_rule decodeBodies [objA; objB]
             (respond "200 OK" "<ListBucketResult>A B</ListBucketResult>")
             (receivedList := listing "s3verify-bucket" [listed objA; listed objB])
             (expecting "s3verify-bucket" [objA; objB] 30));
      [reflexivity | reflexivity | discriminate].
  - assert (Hcount : matchingPairs [listed objA; listed objB] [objA; objB] = 2)
      by (vm_compute; reflexivity).
    split; [exact Hcount|].
    apply (proj2 (verifyBodyListObjectsV1_count_rule decodeBodies [objA; objB]
                    (respond "200 OK"
                       "<ListBucketResult>A B</ListBucketResult>")
                    (receivedList := listing "s3verify-bucket"
                                       [listed objA; listed objB])
                    (expecting "s3verify-bucket" [objA; objB] 0)
                    eq_refl eq_refl) eq_refl).
    exact Hcount.
Defined.

End BodyExamples.

(* ================================================================== *)
(** ** The entry comparison and the quoted ETag *)

Section Quotes.

Local Open Scope string_scope.

Lemma append_dquote_nonempty (t : string) : t ++ dquote <> EmptyString.
Proof. destruct t; discriminate. Qed.

Lemma dropTrailingQuote_append (t : string) :
  dropTrailingQuote (t ++ dquote) = t.
Proof.
  induction t as [|c t IH].
  - reflexivity.
  - change (String c t ++ dquote) with (String c (t ++ dquote)).
    cbn [dropTrailingQuote].
    destruct (t ++ dquote) eqn:E; [now apply append_dquote_nonempty in E|].
    now rewrite IH.
Qed.

Lemma endsWithQuote_append (t : string) : endsWithQuote (t ++ dquote) = true.
Proof.
  induction t as [|c t IH].
  - reflexivity.
  - change (String c t ++ dquote) with (String c (t ++ dquote)).
    cbn [endsWithQuote].
    destruct (t ++ dquote) eqn:E; [now apply append_dquote_nonempty in E|].
    exact IH.
Qed.

Lemma endsWithQuote_split (s : string) :
  endsWithQuote s = true -> s = dropTrailingQuote s ++ dquote.
Proof.
  induction s as [|c s IH]; [discriminate|].
  destruct s as [|c' s'].
  - change (endsWithQuote (String c EmptyString))
      with (Ascii.eqb c (ascii_of_nat 34)).
    change (dropTrailingQuote (String c EmptyString))
      with (if Ascii.eqb c (ascii_of_nat 34) then EmptyString
            else String c EmptyString).
    destruct (Ascii.eqb_spec c (ascii_of_nat 34)) as [->|]; [|discriminate].
    reflexivity.
  - change (endsWithQuote (String c (String c' s')))
      with (endsWithQuote (String c' s')).
    change (dropTrailingQuote (String c (String c' s')))
      with (String c (dropTrailingQuote (String c' s'))).
    intro H. change (String c (String c' s')
                     = String c (dropTrailingQuote (String c' s') ++ dquote)).
    now rewrite <- (IH H).
Qed.

(** A value is the quoted form of [t] exactly when it is wrapped in quotes
    and normalizes to [t]. *)
Lemma quoted_iff_wrapped (s t : string) :
  s = dquote ++ t ++ dquote
  <-> wrappedInQuotes s = true /\ normalizeETag s = t.
Proof.
  split.
  - intros ->.
    change (dquote ++ t ++ dquote)
      with (String (ascii_of_nat 34) (t ++ dquote)).
    unfold wrappedInQuotes, normalizeETag, dropLeadingQuote.
    rewrite Ascii.eqb_refl, endsWithQuote_append, dropTrailingQuote_append.
    now split.
  - destruct s as [|c s]; [intros [H _]; discriminate|].
    unfold wrappedInQuotes, normalizeETag, dropLeadingQuote.
    destruct (Ascii.eqb_spec c (ascii_of_nat 34)) as [->|];
      [|intros [H _]; discriminate].
    cbn [andb]. intros [Hend <-].
    change (String (ascii_of_nat 34) s
            = String (ascii_of_nat 34) (dropTrailingQuote s ++ dquote)).
    now rewrite <- (endsWithQuote_split s Hend).
Qed.

End Quotes.

(** C7, as amended.  A received entry matches an expected entry in
    [verifyBodyListObjectsV1] exactly when the keys are equal, the sizes are
    equal, the received ETag is wrapped in a pair of double quotes, and the
    received ETag with its surrounding quote characters removed is the
    expected ETag. *)
Theorem entryMatches_iff (receivedObject expectedObject : ObjectInfo) :
  ListObjectsV1.entryMatches receivedObject expectedObject = true
  <-> Key receivedObject = Key expectedObject
      /\ Size receivedObject = Size expectedObject
      /\ wrappedInQuotes (ETag receivedObject) = true
      /\ normalizeETag (ETag receivedObject) = ETag expectedObject.
Proof.
  unfold ListObjectsV1.entryMatches.
  rewrite !andb_true_iff, String.eqb_eq, Z.eqb_eq, String.eqb_eq.
  rewrite quoted_iff_wrapped. tauto.
Qed.

(** C7 as stated fails.  An entry whose ETag arrives without quotes, equal to
    the expected ETag, with the same key and size: removing the surrounding
    quote characters leaves it as it is, so the entry matches as the claim
    words it; the code compares with the expected ETag in quotes and does not
    match it. *)
Lemma entryMatches_unquoted_etag :
  normalizeETag (ETag Doubles.objA) = ETag Doubles.objA
  /\ entryMatches_as_specified Doubles.objA Doubles.objA = true
  /\ ListObjectsV1.entryMatches Doubles.objA Doubles.objA = false.
Proof. repeat split; reflexivity. Qed.

(** On a received ETag that is wrapped in quotes, the condition of the code
    and the condition as specified agree. *)
Lemma entryMatches_as_specified_on_quoted
    (receivedObject expectedObject : ObjectInfo) :
  wrappedInQuotes (ETag receivedObject) = true ->
  ListObjectsV1.entryMatches receivedObject expectedObject
  = entryMatches_as_specified receivedObject expectedObject.
Proof.
  intro Hw. unfold ListObjectsV1.entryMatches, entryMatches_as_specified.
  f_equal.
  destruct (String.eqb_spec (normalizeETag (ETag receivedObject))
              (ETag expectedObject)) as [He|Hne].
  - apply String.eqb_eq. apply quoted_iff_wrapped. now split.
  - apply String.eqb_neq. intro Hq. apply quoted_iff_wrapped in Hq.
    now destruct Hq.
Qed.

(* ================================================================== *)
(** ** The order of the checks of [listObjectsV1Verify] *)

Section VerifyOrder.

Import ListObjectsV1.

Variable decodeBucketResult : string -> error + listBucketResult.
Variable verifyStandardHeaders : Response -> option error.
Variable objects : list ObjectInfo.

Lemma verifyStatus_run (res : Response) (expectedStatus : string)
    (log : list event) :
  verifyStatusListObjectsV1 res expectedStatus log
  = (log, if Status res =? expectedStatus then inr tt
          else inl (UnexpectedStatus expectedStatus (Status res))).
Proof.
  unfold verifyStatusListObjectsV1.
  now destruct (Status res =? expectedStatus).
Qed.

Lemma verifyHeader_run (res : Response) (log : list event) :
  verifyHeaderListObjectsV1 verifyStandardHeaders res log
  = (log ++ [EvCheckHeaders],
     match verifyStandardHeaders res with
     | Some err => inl err
     | None => inr tt
     end).
Proof.
  unfold verifyHeaderListObjectsV1, bind, emit.
  now destruct (verifyStandardHeaders res).
Qed.

Lemma verifyBody_run (res : Response) (expectedList : listBucketResult)
    (log : list event) :
  verifyBodyListObjectsV1 decodeBucketResult objects res expectedList log
  = (log ++ [EvDecodeBody],
     match outcome (verifyBodyListObjectsV1 decodeBucketResult objects res
                      expectedList) with
     | Some err => inl err
     | None => inr tt
     end).
Proof.
  unfold outcome, run, verifyBodyListObjectsV1, xmlDecoder, bind, emit.
  cbn [app].
  destruct (decodeBucketResult (Body res)) as [err|r]; [reflexivity|].
  unfold ret.
  rewrite (compare_log objects r expectedList (log ++ [EvDecodeBody])).
  rewrite (compare_log objects r expectedList [EvDecodeBody]).
  destruct (snd (compareListObjectsV1 objects r expectedList [])) as [e|[]];
    reflexivity.
Qed.

(** C4, as amended.  [listObjectsV1Verify] checks the status first, the body
    second and the headers last, each check running only if the one before
    succeeded: a status mismatch is returned with no collaborator called (the
    body is not decoded); an error of the body check is returned with the
    headers not looked at; otherwise the result is that of the header
    check. *)
Theorem listObjectsV1Verify_order (res : Response) (expectedStatus : string)
    (expectedList : listBucketResult) :
  (Status res <> expectedStatus ->
   run (listObjectsV1Verify decodeBucketResult verifyStandardHeaders objects
          res expectedStatus expectedList)
   = ([], Some (UnexpectedStatus expectedStatus (Status res))))
  /\
  (Status res = expectedStatus ->
   forall err,
     outcome (verifyBodyListObjectsV1 decodeBucketResult objects res expectedList)
       = Some err ->
     run (listObjectsV1Verify decodeBucketResult verifyStandardHeaders objects
            res expectedStatus expectedList)
     = ([EvDecodeBody], Some err))
  /\
  (Status res = expectedStatus ->
   outcome (verifyBodyListObjectsV1 decodeBucketResult objects res expectedList)
     = None ->
   run (listObjectsV1Verify decodeBucketResult verifyStandardHeaders objects
          res expectedStatus expectedList)
   = ([EvDecodeBody; EvCheckHeaders], verifyStandardHeaders res)).
Proof.
  unfold run. unfold listObjectsV1Verify, bind.
  rewrite verifyStatus_run.
  repeat split.
  - intro Hne. apply String.eqb_neq in Hne. now rewrite Hne.
  - intros Heq err Hbody. apply String.eqb_eq in Heq. rewrite Heq.
    rewrite verifyBody_run, Hbody. reflexivity.
  - intros Heq Hbody. apply String.eqb_eq in Heq. rewrite Heq.
    rewrite verifyBody_run, Hbody, verifyHeader_run.
    now destruct (verifyStandardHeaders res).
Qed.

End VerifyOrder.

Module OrderExamples.

Import ListObjectsV1 Doubles.

(** C4 as stated fails.  A response with the expected status, a body that
    does not decode and a missing standard header is answered with the error
    of the decoder, the headers never looked at; with the header check before
    the body check the answer would be the header error and the body would
    not be decoded. *)
Lemma listObjectsV1Verify_body_before_headers :
  run (listObjectsV1Verify decodeBodies (requireHeader "X-Amz-Request-Id") []
         (respond "200 OK" "<ListBucketResult") "200 OK"
         (expecting "s3verify-bucket" [] 0))
  = ([EvDecodeBody], Some (ExternalError "XML syntax error"))
  /\
  run (listObjectsV1Verify_as_specified decodeBodies
         (requireHeader "X-Amz-Request-Id") []
         (respond "200 OK" "<ListBucketResult") "200 OK"
         (expecting "s3verify-bucket" [] 0))
  = ([EvCheckHeaders], Some (ExternalError "missing header X-Amz-Request-Id")).
Proof. split; reflexivity. Qed.

(** A "403 Forbidden" answer where "200 OK" was expected. *)
Lemma listObjectsV1Verify_order_witness :
  "403 Forbidden" <> "200 OK"
  /\ run (listObjectsV1Verify decodeBodies (requireHeader "Date") [objA; objB]
            (respond "403 Forbidden" "<ListBucketResult>A B</ListBucketResult>")
            "200 OK" (expecting "s3verify-bucket" [objA; objB] 0))
     = ([], Some (UnexpectedStatus "200 OK" "403 Forbidden")).
Proof.
  split; [discriminate|].
  apply (proj1 (listObjectsV1Verify_order decodeBodies (requireHeader "Date")
                  [objA; objB]
                  (respond "403 Forbidden"
                     "<ListBucketResult>A B</ListBucketResult>")
                  "200 OK" (expecting "s3verify-bucket" [objA; objB] 0))).
  discriminate.
Defined.

End OrderExamples.

(* ================================================================== *)
(** ** ListMultipartUploads *)

Module UploadsExamples.

Import ListMultipartUploads Doubles.

(** [listMultipartUploadsVerify] accepts every response: it calls no
    collaborator and returns no error. *)
Lemma listMultipartUploadsVerify_accepts (res : Response)
    (expectedStatus : string) (expectedList : listMultipartUploadsResult) :
  run (listMultipartUploadsVerify res expectedStatus expectedList) = ([], None).
Proof. reflexivity. Qed.

(** C1 (the code departs from the claim).  On a "403 Forbidden" response,
    with "200 OK" expected, [listMultipartUploadsVerify] returns no error,
    while the status check it never calls reports the mismatch with both
    values. *)
Theorem listMultipartUploadsVerify_ignores_status :
  run (listMultipartUploadsVerify
         (respond "403 Forbidden" "<Error><Code>AccessDenied</Code></Error>")
         "200 OK" (expectedListOf "s3verify-bucket" [uploadA]))
  = ([], None)
  /\
  run (verifyStatusListMultipartUploads
         (respond "403 Forbidden" "<Error><Code>AccessDenied</Code></Error>")
         "200 OK")
  = ([], Some (UnexpectedStatus "200 OK" "403 Forbidden")).
Proof. split; reflexivity. Qed.

(** C8 (the code departs from the claim for ListMultipartUploads).  A body
    that decodes to a listing of another bucket, with the expected upload in
    it, passes [verifyBodyListMultipartUploads]: the [Bucket] field is never
    compared. *)
Theorem verifyBodyListMultipartUploads_ignores_bucket :
  decodeUploadBodies
    "<ListMultipartUploadsResult>other: A</ListMultipartUploadsResult>"
  = inr {| Bucket := "other-bucket"; Uploads := [uploadA] |}
  /\
  run (verifyBodyListMultipartUploads decodeUploadBodies
         (respond "200 OK"
            "<ListMultipartUploadsResult>other: A</ListMultipartUploadsResult>")
         (expectedListOf "s3verify-bucket" [uploadA]))
  = ([EvDecodeBody], None).
Proof. split; reflexivity. Qed.

(** The comparison of upload listings does not depend on the bucket of
    either side. *)
Lemma compareListMultipartUploads_bucket_blind
    (bucket bucket' : string) (uploads expected : list ObjectMultipartInfo)
    (expectedBucket : string) :
  compareListMultipartUploads {| Bucket := bucket; Uploads := uploads |}
    {| Bucket := expectedBucket; Uploads := expected |}
  = compareListMultipartUploads {| Bucket := bucket'; Uploads := uploads |}
      {| Bucket := expectedBucket; Uploads := expected |}.
Proof. reflexivity. Qed.

End UploadsExamples.

(* ================================================================== *)
(** ** The region default *)

Section Region.

Import Config.

Variable URL : Type.
Variable url_Parse : string -> error + URL.
Variable isAmazonEndpoint : URL -> bool.
Variable globalDefaultRegion : string.

(** C9.  When the endpoint parses, [setRegion] returns no error; a non-empty
    region is left as it is (the whole configuration is unchanged); an empty
    region becomes "us-west-1" for an Amazon host and the global default
    region otherwise, the other fields staying as they are. *)
Theorem setRegion_defaults (config : ServerConfig) (endpointURL : URL) :
  url_Parse (Endpoint config) = inr endpointURL ->
  snd (setRegion url_Parse isAmazonEndpoint globalDefaultRegion config) = None
  /\
  (Region config <> EmptyString ->
   fst (setRegion url_Parse isAmazonEndpoint globalDefaultRegion config)
   = config)
  /\
  (Region config = EmptyString ->
   fst (setRegion url_Parse isAmazonEndpoint globalDefaultRegion config)
   = withRegion config
       (if isAmazonEndpoint endpointURL then "us-west-1"
        else globalDefaultRegion)).
Proof.
  intro Hparse. unfold setRegion. rewrite Hparse.
  destruct (String.eqb_spec (Region config) EmptyString) as [He|Hne].
  - destruct (isAmazonEndpoint endpointURL);
      (split; [reflexivity | split; [intro; contradiction | reflexivity]]).
  - split; [reflexivity | split; [reflexivity | intro; contradiction]].
Qed.

(** When the endpoint does not parse, the error of the parser is returned and
    the configuration is left as it is. *)
Lemma setRegion_parse_error (config : ServerConfig) (err : error) :
  url_Parse (Endpoint config) = inl err ->
  setRegion url_Parse isAmazonEndpoint globalDefaultRegion config
  = (config, Some err).
Proof. intro Hparse. unfold setRegion. now rewrite Hparse. Qed.

End Region.

Module RegionExamples.

Import Config Doubles.

Lemma setRegion_defaults_witness :
  parseEndpoint "https://s3.amazonaws.com" = inr "https://s3.amazonaws.com"
  /\ snd (setRegion parseEndpoint amazonDouble "us-east-1"
            (mkServerConfig "access" "secret" "https://s3.amazonaws.com"
               EmptyString)) = None
  /\ Region (fst (setRegion parseEndpoint amazonDouble "us-east-1"
                    (mkServerConfig "access" "secret"
                       "https://s3.amazonaws.com" EmptyString)))
     = "us-west-1".
Proof.
  split; [reflexivity|].
  destruct (setRegion_defaults parseEndpoint amazonDouble "us-east-1"
              (mkServerConfig "access" "secret" "https://s3.amazonaws.com"
                 EmptyString)
              (endpointURL := "https://s3.amazonaws.com") eq_refl)
    as [Herr [_ Hempty]].
  split; [exact Herr|].
  rewrite (Hempty eq_refl). reflexivity.
Defined.

End RegionExamples.

(* ================================================================== *)
(** ** The expectations built by [mainListObjectsV1] *)

Section Expectations.

Import ListObjectsV1.

Lemma insertByKey_perm (o : ObjectInfo) (l : list ObjectInfo) :
  Permutation (o :: l) (insertByKey o l).
Proof.
  induction l as [|x l IH]; simpl.
  - apply Permutation_refl.
  - destruct (String.leb (Key o) (Key x)).
    + apply Permutation_refl.
    + apply perm_trans with (x :: o :: l); [apply perm_swap|].
      now apply perm_skip.
Qed.

Lemma sortByKey_perm (l : list ObjectInfo) : Permutation l (sortByKey l).
Proof.
  induction l as [|o l IH]; simpl.
  - apply perm_nil.
  - apply perm_trans with (o :: sortByKey l); [now apply perm_skip|].
    apply insertByKey_perm.
Qed.

Lemma sortByKey_length (l : list ObjectInfo) :
  length (sortByKey l) = length l.
Proof. symmetry. apply Permutation_length, sortByKey_perm. Qed.

(** The unrestricted expectation has as many entries as the registry. *)
Lemma expectedListOf_length (objects : list ObjectInfo) (bucketName : string) :
  length (Contents (expectedListOf objects bucketName)) = length objects.
Proof. apply sortByKey_length. Qed.

(** With 31 objects or more in the registry, the max-keys expectation holds
    the first 31 objects in key order and a limit of 30. *)
Lemma expectedListMaxKeysOf_shape (objects : list ObjectInfo)
    (bucketName : string) :
  31 <= length objects ->
  expectedListMaxKeysOf objects bucketName
  = Some {| Name := bucketName;
            Contents := firstn 31 (sortByKey objects);
            CommonPrefixes := []; MaxKeys := 30; IsTruncated := false |}
  /\ length (firstn 31 (sortByKey objects)) = 31.
Proof.
  intro Hlen. unfold expectedListMaxKeysOf, objectInfoOf, sliceTo.
  rewrite sortByKey_length.
  destruct (Nat.leb_spec 31 (length objects)) as [_|Hlt]; [|lia].
  split; [reflexivity|].
  rewrite length_firstn, sortByKey_length. lia.
Qed.

End Expectations.

(** For the unrestricted expectation the driver builds from the registry,
    the registry size is the number of expected entries: success only if the
    count of matching pairs is the number of expected entries. *)
Corollary verifyBodyListObjectsV1_driver_expectation
    (decodeBucketResult : string -> error + listBucketResult)
    (objects : list ObjectInfo) (bucketName : string) (res : Response) :
  outcome (ListObjectsV1.verifyBodyListObjectsV1 decodeBucketResult objects res
             (ListObjectsV1.expectedListOf objects bucketName)) = None ->
  exists receivedList,
    decodeBucketResult (Body res) = inr receivedList /\
    matchingPairs (Contents receivedList)
      (Contents (ListObjectsV1.expectedListOf objects bucketName))
    = length (Contents (ListObjectsV1.expectedListOf objects bucketName)).
Proof.
  intro Hnone. rewrite expectedListOf_length.
  destruct (verifyBody_success_all decodeBucketResult objects res
              (ListObjectsV1.expectedListOf objects bucketName) eq_refl Hnone)
    as (r & Hdec & _ & Hcount).
  exists r. now rewrite <- countListed_matchingPairs.
Qed.

Module ExpectationExamples.

Import ListObjectsV1 Doubles.

(** C2 (the code departs from the claim).  From a registry of 45 objects the
    max-keys expectation of [mainListObjectsV1] is built with 31 entries, one
    more than the 30 the claim and the comment in the code give; its limit
    [MaxKeys] is 30. *)
Theorem expectedListMaxKeys_has_31_entries :
  length (fixtureObjects 45) = 45
  /\ option_map (fun e => (length (Contents e), MaxKeys e))
       (expectedListMaxKeysOf (fixtureObjects 45) "s3verify-bucket")
     = Some (31, 30%Z).
Proof. split; vm_compute; reflexivity. Qed.

End ExpectationExamples.

(* ================================================================== *)
(** ** Counting pairs is not pairing entries *)

Lemma in_map_fst {A B} (p : list (A * B)) (a : A) :
  In a (map fst p) -> exists b, In (a, b) p.
Proof.
  intro H. apply in_map_iff in H. destruct H as [[a' b] [Heq Hin]].
  simpl in Heq. subst a'. now exists b.
Qed.

Lemma in_map_snd {A B} (p : list (A * B)) (b : B) :
  In b (map snd p) -> exists a, In (a, b) p.
Proof.
  intro H. apply in_map_iff in H. destruct H as [[a b'] [Heq Hin]].
  simpl in Heq. subst b'. now exists a.
Qed.

(** In a list of pairs without a repeated first component, a first component
    determines the second. *)
Lemma NoDup_fst_functional {A B} (p : list (A * B)) (a : A) (b b' : B) :
  NoDup (map fst p) -> In (a, b) p -> In (a, b') p -> b = b'.
Proof.
  induction p as [|[x y] p IH]; simpl; intros Hnd H1 H2; [contradiction|].
  inversion Hnd as [|? ? Hnotin Hnd']; subst.
  destruct H1 as [H1|H1], H2 as [H2|H2].
  - congruence.
  - injection H1 as -> ->. exfalso. apply Hnotin.
    apply in_map_iff. now exists (a, b').
  - injection H2 as -> ->. exfalso. apply Hnotin.
    apply in_map_iff. now exists (a, b).
  - now apply IH.
Qed.

Module PairingExamples.

Import ListObjectsV1 Doubles.

Lemma matches_in_example (i j : nat) (r e : ObjectInfo) :
  nth_error onceAndOther i = Some r -> nth_error twice j = Some e ->
  entryMatches r e = true -> i = 0.
Proof.
  intros Hr He Hm.
  destruct i as [|[|i]]; [reflexivity | | destruct i; discriminate].
  exfalso. injection Hr as <-.
  destruct j as [|[|j]]; [| | destruct j; discriminate];
    injection He as <-; vm_compute in Hm; discriminate.
Qed.

(** C10.  The expectation [objA; objA] has a duplicated entry; the received
    entries [objA; objC] (as listed, ETags quoted) cannot be paired one to one
    with it, neither so that every received entry is paired nor so that every
    expected entry is paired; [verifyBodyListObjectsV1] still succeeds, the
    single received [objA] being counted once for each expected copy. *)
Theorem verifyBodyListObjectsV1_accepts_without_pairing :
  exists (objects : list ObjectInfo) (expectedList receivedList : listBucketResult)
         (res : Response),
    decodeBodies (Body res) = inr receivedList
    /\ hasDuplicate (Contents expectedList)
    /\ (forall p,
          pairing (Contents receivedList) (Contents expectedList) p ->
          ~ coversReceived (Contents receivedList) p)
    /\ (forall p,
          pairing (Contents receivedList) (Contents expectedList) p ->
          ~ coversExpected (Contents expectedList) p)
    /\ countListed (Contents receivedList) (Contents expectedList)
       = length (Contents expectedList)
    /\ outcome (verifyBodyListObjectsV1 decodeBodies objects res expectedList)
       = None.
Proof.
  exists twice, (expecting "s3verify-bucket" twice 0),
    (listing "s3verify-bucket" onceAndOther),
    (respond "200 OK" "<ListBucketResult>A C</ListBucketResult>").
  split; [reflexivity|].
  split.
  { exists 0, 1, objA, objA. repeat split; try reflexivity. discriminate. }
  split.
  { intros p (_ & _ & Hmatch) Hcov.
    destruct (in_map_fst p 1 (Hcov 1 ltac:(simpl; lia))) as [j Hin].
    destruct (Hmatch _ _ Hin) as (r & e & Hr & He & Hm).
    pose proof (matches_in_example _ _ Hr He Hm). discriminate. }
  split.
  { intros p (Hnd & _ & Hmatch) Hcov.
    destruct (in_map_snd p 0 (Hcov 0 ltac:(simpl; lia))) as [i0 Hin0].
    destruct (in_map_snd p 1 (Hcov 1 ltac:(simpl; lia))) as [i1 Hin1].
    destruct (Hmatch _ _ Hin0) as (r0 & e0 & Hr0 & He0 & Hm0).
    destruct (Hmatch _ _ Hin1) as (r1 & e1 & Hr1 & He1 & Hm1).
    pose proof (matches_in_example _ _ Hr0 He0 Hm0) as ->.
    pose proof (matches_in_example _ _ Hr1 He1 Hm1) as ->.
    pose proof (NoDup_fst_functional p 0 0 1 Hnd Hin0 Hin1). discriminate. }
  split; reflexivity.
Qed.

End PairingExamples.

(* ================================================================== *)
(** ** Counting by expected entry *)

Section CountingByExpected.

Variables (A B : Type) (matches : A -> B -> bool).

Lemma matchesOf_cons (r : A) (e : B) (expected : list B) :
  matchesOf matches r (e :: expected)
  = (if matches r e then 1 else 0) + matchesOf matches r expected.
Proof. unfold matchesOf. simpl. now destruct (matches r e). Qed.

Lemma matchedBy_sum (e : B) (received : list A) :
  matchedBy matches e received
  = list_sum (map (fun r => if matches r e then 1 else 0) received).
Proof.
  unfold matchedBy.
  induction received as [|r received IH]; simpl; [reflexivity|].
  destruct (matches r e); simpl; lia.
Qed.

(** The pairs can be counted expected entry by expected entry. *)
Lemma pairCount_by_expected (received : list A) (expected : list B) :
  pairCount matches received expected
  = list_sum (map (fun e => matchedBy matches e received) expected).
Proof.
  rewrite pairCount_sum.
  induction expected as [|e expected IH]; simpl.
  - induction received; simpl; [reflexivity | assumption].
  - rewrite <- IH, matchedBy_sum. clear IH.
    induction received as [|r received IH]; simpl; [reflexivity|].
    rewrite matchesOf_cons, IH. lia.
Qed.

Lemma pairCount_perm_expected (received : list A) (expected expected' : list B) :
  Permutation expected expected' ->
  pairCount matches received expected = pairCount matches received expected'.
Proof.
  intro HP. rewrite !pairCount_by_expected.
  apply list_sum_perm. now apply Permutation_map.
Qed.

Lemma matchedBy_pos (e : B) (received : list A) :
  1 <= matchedBy matches e received
  <-> exists r, In r received /\ matches r e = true.
Proof.
  unfold matchedBy. split.
  - intro H.
    destruct (filter (fun r => matches r e) received) as [|r l] eqn:E;
      [simpl in H; lia|].
    exists r. apply (filter_In (fun r => matches r e)). rewrite E. now left.
  - intros [r Hr].
    apply (proj2 (filter_In (fun r => matches r e) r received)) in Hr.
    destruct (filter (fun r => matches r e) received); [contradiction|].
    simpl. lia.
Qed.

(** When matching entries share a key and the received keys are pairwise
    different, an expected entry is matched at most once. *)
Lemma matchedBy_le_1 (K : Type) (key : A -> K) (keyOf : B -> K)
    (e : B) (received : list A) :
  (forall r, matches r e = true -> key r = keyOf e) ->
  NoDup (map key received) ->
  matchedBy matches e received <= 1.
Proof.
  intros Hkey. unfold matchedBy.
  induction received as [|r received IH]; simpl; intro Hnd; [lia|].
  inversion Hnd as [|? ? Hnotin Hnd']; subst.
  destruct (matches r e) eqn:Hm; [|now apply IH].
  simpl.
  destruct (filter (fun r0 => matches r0 e) received) as [|r' l] eqn:E;
    [simpl; lia|].
  exfalso. apply Hnotin.
  assert (Hr' : In r' (filter (fun r0 => matches r0 e) received))
    by (rewrite E; now left).
  apply (proj1 (filter_In (fun r0 => matches r0 e) r' received)) in Hr'.
  destruct Hr' as [Hin Hm'].
  rewrite (Hkey r Hm), <- (Hkey r' Hm'). now apply in_map.
Qed.

Lemma list_sum_le_length (C : Type) (f : C -> nat) (l : list C) :
  (forall x, In x l -> f x <= 1) ->
  list_sum (map f l) <= length l
  /\ (list_sum (map f l) = length l <-> forall x, In x l -> f x = 1).
Proof.
  induction l as [|x l IH]; simpl; intro Hle.
  - split; [lia|]. split; [intros _ y []| reflexivity].
  - destruct IH as [IHle IHeq]; [intros y Hy; apply Hle; now right|].
    pose proof (Hle x (or_introl eq_refl)) as Hx.
    split; [lia|]. split.
    + intros Hsum y [<-|Hy]; [lia|]. apply IHeq; [lia | assumption].
    + intro Hall.
      rewrite (Hall x (or_introl eq_refl)).
      assert (list_sum (map f l) = length l)
        by (apply IHeq; intros y Hy; apply Hall; now right).
      lia.
Qed.

(** With pairwise different received keys, the pairs are as many as the
    expected entries exactly when every expected entry is matched. *)
Lemma pairCount_full (K : Type) (key : A -> K) (keyOf : B -> K)
    (received : list A) (expected : list B) :
  (forall r e, matches r e = true -> key r = keyOf e) ->
  NoDup (map key received) ->
  (pairCount matches received expected = length expected
   <-> forall e, In e expected ->
         exists r, In r received /\ matches r e = true).
Proof.
  intros Hkey Hnd. rewrite pairCount_by_expected.
  destruct (list_sum_le_length (fun e => matchedBy matches e received) expected)
    as [_ Heq].
  { intros e _. eapply matchedBy_le_1; [intro r; apply Hkey | exact Hnd]. }
  rewrite Heq. split; intros H e He.
  - apply matchedBy_pos. rewrite (H e He). lia.
  - pose proof (proj2 (matchedBy_pos e received) (H e He)).
    assert (matchedBy matches e received <= 1)
      by (eapply matchedBy_le_1; [intro r; apply Hkey | exact Hnd]).
    lia.
Qed.

Lemma pairCount_none (received : list A) (expected : list B) :
  (forall r e, In r received -> In e expected -> matches r e = false) ->
  pairCount matches received expected = 0.
Proof.
  intro Hnone. rewrite pairCount_sum.
  induction received as [|r received IH]; [reflexivity|].
  simpl. rewrite IH by (intros r' e Hr He; apply Hnone; [now right | exact He]).
  assert (Hr : matchesOf matches r expected = 0); [|lia].
  unfold matchesOf.
  assert (Hall : forall e, In e expected -> matches r e = false)
    by (intros e He; apply Hnone; [now left | exact He]).
  clear - Hall.
  induction expected as [|e expected IHe]; [reflexivity|].
  simpl. rewrite (Hall e (or_introl eq_refl)).
  apply IHe. intros e' He'. apply Hall. now right.
Qed.

End CountingByExpected.

(* ================================================================== *)
(** ** More on the body check of ListObjects V1 *)

Lemma entryMatches_key (r e : ObjectInfo) :
  ListObjectsV1.entryMatches r e = true -> Key r = Key e.
Proof.
  unfold ListObjectsV1.entryMatches. rewrite !andb_true_iff.
  intros [[Hk _] _]. now apply String.eqb_eq.
Qed.

Section MoreBodyProperties.

Import ListObjectsV1.

Variable decodeBucketResult : string -> error + listBucketResult.
Variable objects : list ObjectInfo.

Lemma verifyBody_all_outcome (res : Response)
    (receivedList expectedList : listBucketResult) :
  decodeBucketResult (Body res) = inr receivedList ->
  Name receivedList = Name expectedList ->
  MaxKeys expectedList = 0%Z ->
  (outcome (verifyBodyListObjectsV1 decodeBucketResult objects res expectedList)
     = None
   <-> countListed (Contents receivedList) (Contents expectedList)
       = length objects).
Proof.
  intros Hdec Hname Hmk. unfold outcome.
  rewrite (verifyBody_decoded _ objects _ expectedList Hdec). simpl.
  rewrite (compare_all objects _ _ Hname Hmk). cbv zeta.
  destruct (Nat.eqb_spec (length objects)
              (countListed (Contents receivedList) (Contents expectedList)))
    as [He|He].
  - split; [intros _; now symmetry | reflexivity].
  - split; [discriminate | intro Heq; symmetry in Heq; contradiction].
Qed.

(** X1.  A body that does not decode makes the body check return the error
    of the decoder, whatever the expectation and the registry; the decoder is
    the only collaborator called. *)
Theorem verifyBodyListObjectsV1_malformed_body (res : Response)
    (expectedList : listBucketResult) (err : error) :
  decodeBucketResult (Body res) = inl err ->
  run (verifyBodyListObjectsV1 decodeBucketResult objects res expectedList)
  = ([EvDecodeBody], Some err).
Proof. apply verifyBody_malformed. Qed.

(** X2.  The bucket name is compared before anything is counted: a decoded
    body naming another bucket is answered with the bucket error carrying the
    expected and the received name, whatever the entries, the limit and the
    registry. *)
Theorem verifyBodyListObjectsV1_bucket_first (res : Response)
    (receivedList expectedList : listBucketResult) :
  decodeBucketResult (Body res) = inr receivedList ->
  Name receivedList <> Name expectedList ->
  run (verifyBodyListObjectsV1 decodeBucketResult objects res expectedList)
  = ([EvDecodeBody],
     Some (UnexpectedBucket (Name expectedList) (Name receivedList))).
Proof.
  intros Hdec Hname.
  rewrite (verifyBody_decoded _ objects _ expectedList Hdec).
  now rewrite (compare_bucket objects _ _ Hname).
Qed.


End MoreBodyProperties.

(** X3.  With a max-keys limit the verdict of the body check depends only on
    the bucket name and on the number of received entries: two decoded bodies
    with as many entries (contents plus common prefixes) get the same
    verdict, whatever the entries, the expected entries and the registry. *)
Theorem verifyBodyListObjectsV1_limit_counts_only
    (decodeBucketResult : string -> error + listBucketResult)
    (objects objects' : list ObjectInfo) (res res' : Response)
    (receivedList receivedList' expectedList expectedList' : listBucketResult) :
  decodeBucketResult (Body res) = inr receivedList ->
  decodeBucketResult (Body res') = inr receivedList' ->
  Name receivedList = Name expectedList ->
  Name receivedList' = Name expectedList' ->
  MaxKeys expectedList <> 0%Z ->
  MaxKeys expectedList' = MaxKeys expectedList ->
  length (Contents receivedList') + length (CommonPrefixes receivedList')
  = length (Contents receivedList) + length (CommonPrefixes receivedList) ->
  outcome (ListObjectsV1.verifyBodyListObjectsV1 decodeBucketResult objects'
             res' expectedList')
  = outcome (ListObjectsV1.verifyBodyListObjectsV1 decodeBucketResult objects
               res expectedList).
Proof.
  intros Hdec Hdec' Hname Hname' Hmk Hmk' Hlen.
  unfold outcome.
  rewrite (verifyBody_decoded _ objects _ expectedList Hdec).
  rewrite (verifyBody_decoded _ objects' _ expectedList' Hdec'). simpl.
  rewrite (compare_maxkeys objects _ _ Hname Hmk).
  assert (Hmk2 : MaxKeys expectedList' <> 0%Z) by congruence.
  rewrite (compare_maxkeys objects' _ _ Hname' Hmk2).
  cbv zeta. now rewrite Hmk', Hlen.
Qed.

(** A listing that shows every object of the registry once, under its key,
    its size and its ETag in quotes, gives as many matching pairs as the
    registry has objects, whatever the other fields of the entries are. *)
Lemma faithful_listing_count (objects received : list ObjectInfo) :
  NoDup (map Key objects) ->
  Permutation (map comparedFields received) (map listedFields objects) ->
  ListObjectsV1.countListed received (ListObjectsV1.sortByKey objects)
  = length objects.
Proof.
  intros Hnd Hperm.
  rewrite countListed_pairCount.
  rewrite <- (@pairCount_perm_expected _ _ ListObjectsV1.entryMatches
                received _ _ (sortByKey_perm objects)).
  apply (@pairCount_full _ _ ListObjectsV1.entryMatches _ Key Key
           received objects entryMatches_key).
  - assert (Hkeys : Permutation (map Key received) (map Key objects)).
    { pose proof (Permutation_map (fun f : string * Z * string => fst (fst f))
                    Hperm) as H.
      rewrite !map_map in H. exact H. }
    exact (Permutation_NoDup (Permutation_sym Hkeys) Hnd).
  - intros o Ho.
    assert (Hin : In (listedFields o) (map comparedFields received)).
    { apply (Permutation_in _ (Permutation_sym Hperm)). now apply in_map. }
    apply in_map_iff in Hin. destruct Hin as (r & Hfields & Hr).
    exists r. split; [exact Hr|].
    apply entryMatches_sameEntry.
    unfold comparedFields, listedFields in Hfields.
    injection Hfields as Hk Hs He. now repeat split.
Qed.

(** X5.  A faithful listing passes: when the keys of the registry are
    pairwise different, a decoded body that names the bucket and shows every
    object of the registry once, in any order, under its key, its size and
    its ETag in quotes (the other fields, such as the time of last
    modification, being whatever the server gives), is accepted against the
    unrestricted expectation the driver builds. *)
Theorem verifyBodyListObjectsV1_accepts_faithful_listing
    (decodeBucketResult : string -> error + listBucketResult)
    (objects : list ObjectInfo) (bucketName : string) (res : Response)
    (receivedList : listBucketResult) :
  NoDup (map Key objects) ->
  decodeBucketResult (Body res) = inr receivedList ->
  Name receivedList = bucketName ->
  Permutation (map comparedFields (Contents receivedList))
    (map listedFields objects) ->
  outcome (ListObjectsV1.verifyBodyListObjectsV1 decodeBucketResult objects res
             (ListObjectsV1.expectedListOf objects bucketName))
  = None.
Proof.
  intros Hnd Hdec Hname Hperm.
  apply (@verifyBody_all_outcome decodeBucketResult objects res receivedList
           (ListObjectsV1.expectedListOf objects bucketName)
           Hdec Hname eq_refl).
  now apply faithful_listing_count.
Qed.

(* ================================================================== *)
(** ** The verifier and the driver of ListObjects V1 *)

Section Driver.

Import ListObjectsV1.

Variable decodeBucketResult : string -> error + listBucketResult.
Variable verifyStandardHeaders : Response -> option error.
Variable objects : list ObjectInfo.

(** When the body check succeeds, in terms of the decoded body. *)
Lemma verifyBody_success (res : Response) (expectedList : listBucketResult) :
  outcome (verifyBodyListObjectsV1 decodeBucketResult objects res expectedList)
    = None
  <-> exists receivedList,
        decodeBucketResult (Body res) = inr receivedList
        /\ Name receivedList = Name expectedList
        /\ (if (MaxKeys expectedList =? 0)%Z
            then countListed (Contents receivedList) (Contents expectedList)
                 = length objects
            else MaxKeys expectedList
                 = Z.of_nat (length (Contents receivedList)
                             + length (CommonPrefixes receivedList))).
Proof.
  unfold outcome.
  destruct (decodeBucketResult (Body res)) as [err|r] eqn:Hdec.
  - rewrite (verifyBody_malformed _ objects _ expectedList Hdec). simpl.
    split; [discriminate | intros (r & Hr & _); discriminate].
  - rewrite (verifyBody_decoded _ objects _ expectedList Hdec). simpl.
    destruct (String.eqb_spec (Name r) (Name expectedList)) as [Hname|Hname].
    + destruct (Z.eqb_spec (MaxKeys expectedList) 0) as [Hmk|Hmk].
      * rewrite (compare_all objects _ _ Hname Hmk). cbv zeta.
        destruct (Nat.eqb_spec (length objects)
                    (countListed (Contents r) (Contents expectedList)))
          as [He|He]; split; try discriminate.
        -- intros _. exists r. now repeat split.
        -- reflexivity.
        -- intros (r' & Hr' & _ & Hc). injection Hr' as <-.
           symmetry in Hc. contradiction.
      * rewrite (compare_maxkeys objects _ _ Hname Hmk). cbv zeta.
        destruct (Z.eqb_spec (MaxKeys expectedList)
                    (Z.of_nat (length (Contents r)
                               + length (CommonPrefixes r)))) as [He|He];
          split; try discriminate.
        -- intros _. exists r. now repeat split.
        -- reflexivity.
        -- intros (r' & Hr' & _ & Hc). injection Hr' as <-. contradiction.
    + rewrite (compare_bucket objects _ _ Hname).
      split; [discriminate|].
      intros (r' & Hr' & Hn & _). injection Hr' as <-. contradiction.
Qed.

Lemma verify_success (res : Response) (expectedStatus : string)
    (expectedList : listBucketResult) :
  outcome (listObjectsV1Verify decodeBucketResult verifyStandardHeaders objects
             res expectedStatus expectedList) = None
  <-> Status res = expectedStatus
      /\ outcome (verifyBodyListObjectsV1 decodeBucketResult objects res
                    expectedList) = None
      /\ verifyStandardHeaders res = None.
Proof.
  unfold outcome at 1, run. unfold listObjectsV1Verify, bind.
  rewrite verifyStatus_run.
  destruct (String.eqb_spec (Status res) expectedStatus) as [Hs|Hs].
  - rewrite verifyBody_run.
    destruct (outcome (verifyBodyListObjectsV1 decodeBucketResult objects res
                         expectedList)) as [e|].
    + simpl. split; [discriminate | intros (_ & H & _); discriminate].
    + rewrite verifyHeader_run.
      destruct (verifyStandardHeaders res) as [e|]; simpl.
      * split; [discriminate | intros (_ & _ & H); discriminate].
      * now split.
  - simpl. split; [discriminate | intros (H & _); contradiction].
Qed.

(** X6.  [listObjectsV1Verify] returns no error exactly when the status line
    is the expected one, the body check succeeds and the standard headers
    are accepted. *)
Theorem listObjectsV1Verify_success_iff (res : Response)
    (expectedStatus : string) (expectedList : listBucketResult) :
  outcome (listObjectsV1Verify decodeBucketResult verifyStandardHeaders objects
             res expectedStatus expectedList) = None
  <-> Status res = expectedStatus
      /\ outcome (verifyBodyListObjectsV1 decodeBucketResult objects res
                    expectedList) = None
      /\ verifyStandardHeaders res = None.
Proof. apply verify_success. Qed.

Variable roundTrip : list (string * string) -> error + Response.

Lemma main_passes (bucketName : string) :
  31 <= length objects ->
  (mainListObjectsV1 decodeBucketResult verifyStandardHeaders objects roundTrip
     bucketName = Some true
   <-> exists noParamRes maxKeysRes,
         roundTrip [] = inr noParamRes
         /\ roundTrip [("max-keys", "30")] = inr maxKeysRes
         /\ passesAll decodeBucketResult verifyStandardHeaders objects bucketName noParamRes
         /\ passesLimit decodeBucketResult verifyStandardHeaders bucketName maxKeysRes).
Proof.
  intro Hlen. unfold mainListObjectsV1.
  destruct (expectedListMaxKeysOf_shape objects bucketName Hlen) as [-> _].
  assert (Hall : forall res,
            outcome (listObjectsV1Verify decodeBucketResult
                       verifyStandardHeaders objects res "200 OK"
                       (expectedListOf objects bucketName)) = None
            <-> passesAll decodeBucketResult verifyStandardHeaders objects bucketName res).
  { intro res. rewrite verify_success, verifyBody_success. reflexivity. }
  assert (Hlim : forall res,
            outcome (listObjectsV1Verify decodeBucketResult
                       verifyStandardHeaders objects res "200 OK"
                       {| Name := bucketName;
                          Contents := firstn 31 (sortByKey objects);
                          CommonPrefixes := []; MaxKeys := 30;
                          IsTruncated := false |}) = None
            <-> passesLimit decodeBucketResult verifyStandardHeaders bucketName res).
  { intro res. rewrite verify_success, verifyBody_success.
    unfold passesLimit. cbn [MaxKeys Name Z.eqb].
    split; intros (Hs & (r & Hd & Hn & Hc) & Hh);
      (split; [exact Hs | split; [exists r; repeat split; try assumption; lia
                                 | exact Hh]]). }
  destruct (roundTrip []) as [e1|res1].
  { split; [discriminate | intros (a & b & H & _); discriminate]. }
  destruct (outcome (listObjectsV1Verify decodeBucketResult
                       verifyStandardHeaders objects res1 "200 OK"
                       (expectedListOf objects bucketName))) as [e|] eqn:H1.
  { split; [discriminate|]. intros (a & b & Ha & _ & Hp & _).
    injection Ha as <-. apply Hall in Hp. congruence. }
  destruct (roundTrip [("max-keys", "30")]) as [e2|res2].
  { split; [discriminate | intros (a & b & _ & H & _); discriminate]. }
  destruct (outcome (listObjectsV1Verify decodeBucketResult
                       verifyStandardHeaders objects res2 "200 OK" _))
    as [e|] eqn:H2.
  { split; [discriminate|]. intros (a & b & _ & Hb & _ & Hp).
    injection Hb as <-. apply Hlim in Hp. congruence. }
  split; [|reflexivity]. intros _.
  exists res1, res2.
  split; [reflexivity|]. split; [reflexivity|].
  split; [now apply Hall | now apply Hlim].
Qed.

End Driver.

Lemma distinctb_NoDup (l : list string) : distinctb l = true -> NoDup l.
Proof.
  induction l as [|x l IH]; simpl; intro H; [constructor|].
  apply andb_true_iff in H. destruct H as [Hx Hl].
  constructor; [|now apply IH].
  intro Hin. apply negb_true_iff in Hx.
  assert (existsb (String.eqb x) l = true); [|congruence].
  apply existsb_exists. exists x. split; [assumption | apply String.eqb_refl].
Qed.

Section DriverProperties.

Import ListObjectsV1.

Variable decodeBucketResult : string -> error + listBucketResult.
Variable verifyStandardHeaders : Response -> option error.
Variable objects : list ObjectInfo.
Variable roundTrip : list (string * string) -> error + Response.

Lemma main_defined (bucketName : string) :
  31 <= length objects ->
  exists passed,
    mainListObjectsV1 decodeBucketResult verifyStandardHeaders objects roundTrip
      bucketName = Some passed.
Proof.
  intro Hlen. unfold mainListObjectsV1.
  destruct (expectedListMaxKeysOf_shape objects bucketName Hlen) as [-> _].
  repeat match goal with
         | |- context [match ?x with _ => _ end] => destruct x
         end; eexists; reflexivity.
Qed.


(** X8.  A conforming server passes the test: with 31 objects or more of
    pairwise different keys in the registry, if the request without
    parameters is answered "200 OK" with accepted headers and a listing of
    the bucket that shows every object once, in any order, under its key, its
    size and its ETag in quotes (with whatever times of last modification),
    and the request with [max-keys=30] is answered "200 OK" with accepted
    headers and a listing of the bucket with 30 entries,
    [mainListObjectsV1] reports success. *)
Theorem mainListObjectsV1_conforming_server_passes (bucketName : string)
    (noParamRes maxKeysRes : Response) (allList limitedList : listBucketResult) :
  31 <= length objects ->
  NoDup (map Key objects) ->
  roundTrip [] = inr noParamRes ->
  roundTrip [("max-keys", "30")] = inr maxKeysRes ->
  Status noParamRes = "200 OK" ->
  Status maxKeysRes = "200 OK" ->
  verifyStandardHeaders noParamRes = None ->
  verifyStandardHeaders maxKeysRes = None ->
  decodeBucketResult (Body noParamRes) = inr allList ->
  decodeBucketResult (Body maxKeysRes) = inr limitedList ->
  Name allList = bucketName ->
  Name limitedList = bucketName ->
  Permutation (map comparedFields (Contents allList))
    (map listedFields objects) ->
  length (Contents limitedList) + length (CommonPrefixes limitedList) = 30 ->
  mainListObjectsV1 decodeBucketResult verifyStandardHeaders objects roundTrip
    bucketName = Some true.
Proof.
  intros Hlen Hnd Hr1 Hr2 Hs1 Hs2 Hh1 Hh2 Hd1 Hd2 Hn1 Hn2 Hperm Hcount.
  apply (@main_passes decodeBucketResult verifyStandardHeaders objects
           roundTrip bucketName Hlen).
  exists noParamRes, maxKeysRes.
  split; [exact Hr1|]. split; [exact Hr2|]. split.
  - split; [exact Hs1|]. split; [|exact Hh1].
    exists allList. split; [exact Hd1|]. split; [exact Hn1|].
    now apply faithful_listing_count.
  - split; [exact Hs2|]. split; [|exact Hh2].
    exists limitedList. now repeat split.
Qed.

(** X9.  A server that does not honour the limit fails the test: with 31
    objects or more in the registry, if the answer to the request with
    [max-keys=30] decodes to a listing whose number of entries (contents plus
    common prefixes) is not 30, [mainListObjectsV1] reports failure. *)
Theorem mainListObjectsV1_limit_ignored_fails (bucketName : string)
    (maxKeysRes : Response) (limitedList : listBucketResult) :
  31 <= length objects ->
  roundTrip [("max-keys", "30")] = inr maxKeysRes ->
  decodeBucketResult (Body maxKeysRes) = inr limitedList ->
  length (Contents limitedList) + length (CommonPrefixes limitedList) <> 30 ->
  mainListObjectsV1 decodeBucketResult verifyStandardHeaders objects roundTrip
    bucketName = Some false.
Proof.
  intros Hlen Hr2 Hd2 Hcount.
  destruct (main_defined bucketName Hlen) as [[|] Hmain]; [|exact Hmain].
  exfalso.
  apply (@main_passes decodeBucketResult verifyStandardHeaders objects
           roundTrip bucketName Hlen) in Hmain.
  destruct Hmain as (res1 & res2 & _ & Hr2' & _ & (_ & (r & Hd & _ & Hc) & _)).
  rewrite Hr2 in Hr2'. injection Hr2' as <-.
  rewrite Hd2 in Hd. injection Hd as <-. contradiction.
Qed.

End DriverProperties.

(* ================================================================== *)
(** ** The body check of ListMultipartUploads *)

Lemma uploadMatches_eq (r e : ObjectMultipartInfo) :
  ListMultipartUploads.uploadMatches r e = true <-> r = e.
Proof.
  unfold ListMultipartUploads.uploadMatches.
  rewrite !andb_true_iff, Z.eqb_eq, !String.eqb_eq.
  destruct r, e; simpl. split.
  - intros [[-> ->] ->]. reflexivity.
  - intro H. injection H as -> -> ->. now repeat split.
Qed.

Lemma uploadMatches_id (r e : ObjectMultipartInfo) :
  ListMultipartUploads.uploadMatches r e = true -> UploadID r = UploadID e.
Proof. intro H. apply uploadMatches_eq in H. now subst. Qed.

Section BodyListMultipartUploads.

Import ListMultipartUploads.

Variable decodeUploadsResult : string -> error + listMultipartUploadsResult.

Lemma compareUploads_log (receivedList expectedList : listMultipartUploadsResult)
    (log : list event) :
  compareListMultipartUploads receivedList expectedList log
  = (log, snd (compareListMultipartUploads receivedList expectedList [])).
Proof.
  unfold compareListMultipartUploads.
  repeat match goal with |- context [if ?b then _ else _] => destruct b end;
    reflexivity.
Qed.

Lemma verifyBodyUploads_decoded (res : Response)
    (receivedList expectedList : listMultipartUploadsResult) :
  decodeUploadsResult (Body res) = inr receivedList ->
  run (verifyBodyListMultipartUploads decodeUploadsResult res expectedList)
  = ([EvDecodeBody],
     outcome (compareListMultipartUploads receivedList expectedList)).
Proof.
  intro Hdec.
  unfold run at 1, verifyBodyListMultipartUploads, xmlDecoder, bind, emit.
  simpl. rewrite Hdec. unfold ret at 1.
  rewrite compareUploads_log. unfold outcome, run.
  rewrite (compareUploads_log _ _ []). simpl.
  destruct (snd (compareListMultipartUploads receivedList expectedList []));
    reflexivity.
Qed.

Lemma compareUploads_outcome
    (receivedList expectedList : listMultipartUploadsResult) :
  outcome (compareListMultipartUploads receivedList expectedList)
  = if (length (Uploads receivedList) =? length (Uploads expectedList))%nat
    then if (countUploads (Uploads receivedList) (Uploads expectedList)
             =? length (Uploads expectedList))%nat
         then None else Some WrongMetaData
    else Some (UnexpectedUploadCount (length (Uploads expectedList))
                                     (length (Uploads receivedList))).
Proof.
  unfold outcome, run, compareListMultipartUploads.
  destruct (length (Uploads receivedList) =? length (Uploads expectedList))%nat;
    [|reflexivity].
  cbn [negb].
  now destruct (countUploads (Uploads receivedList) (Uploads expectedList)
                =? length (Uploads expectedList))%nat.
Qed.

(** X10.  The body check of upload listings returns the error of the decoder
    when the body does not decode, and, when it decodes to a listing with
    another number of uploads than expected, the count error carrying the
    expected and the received number, before any upload is compared. *)
Theorem verifyBodyListMultipartUploads_errors (res : Response)
    (expectedList : listMultipartUploadsResult) :
  (forall err,
     decodeUploadsResult (Body res) = inl err ->
     run (verifyBodyListMultipartUploads decodeUploadsResult res expectedList)
     = ([EvDecodeBody], Some err))
  /\
  (forall receivedList,
     decodeUploadsResult (Body res) = inr receivedList ->
     length (Uploads receivedList) <> length (Uploads expectedList) ->
     run (verifyBodyListMultipartUploads decodeUploadsResult res expectedList)
     = ([EvDecodeBody],
        Some (UnexpectedUploadCount (length (Uploads expectedList))
                                    (length (Uploads receivedList))))).
Proof.
  split.
  - intros err Hdec.
    unfold run, verifyBodyListMultipartUploads, xmlDecoder, bind, emit. simpl.
    now rewrite Hdec.
  - intros r Hdec Hlen.
    rewrite (verifyBodyUploads_decoded _ expectedList Hdec).
    rewrite compareUploads_outcome.
    apply Nat.eqb_neq in Hlen. now rewrite Hlen.
Qed.

(** X11.  Permuting the received uploads does not change what the body check
    of upload listings does. *)
Theorem verifyBodyListMultipartUploads_permutation (res res' : Response)
    (receivedList receivedList' expectedList : listMultipartUploadsResult) :
  decodeUploadsResult (Body res) = inr receivedList ->
  decodeUploadsResult (Body res') = inr receivedList' ->
  Permutation (Uploads receivedList) (Uploads receivedList') ->
  run (verifyBodyListMultipartUploads decodeUploadsResult res' expectedList)
  = run (verifyBodyListMultipartUploads decodeUploadsResult res expectedList).
Proof.
  intros Hdec Hdec' Hperm.
  rewrite (verifyBodyUploads_decoded _ expectedList Hdec).
  rewrite (verifyBodyUploads_decoded _ expectedList Hdec').
  rewrite !compareUploads_outcome, !countUploads_pairCount.
  rewrite <- (Permutation_length Hperm).
  now rewrite <- (pairCount_perm uploadMatches (Uploads expectedList) Hperm).
Qed.

(** X12.  When the upload IDs are pairwise different among the received
    uploads and among the expected uploads, the body check of upload listings
    succeeds exactly when the received uploads are the expected uploads (key,
    upload ID and size) in some order. *)
Theorem verifyBodyListMultipartUploads_success_iff (res : Response)
    (receivedList expectedList : listMultipartUploadsResult) :
  decodeUploadsResult (Body res) = inr receivedList ->
  NoDup (map UploadID (Uploads receivedList)) ->
  NoDup (map UploadID (Uploads expectedList)) ->
  (outcome (verifyBodyListMultipartUploads decodeUploadsResult res expectedList)
     = None
   <-> Permutation (Uploads receivedList) (Uploads expectedList)).
Proof.
  intros Hdec Hndr Hnde. unfold outcome.
  rewrite (verifyBodyUploads_decoded _ expectedList Hdec). simpl.
  rewrite compareUploads_outcome, countUploads_pairCount.
  pose proof (@pairCount_full _ _ uploadMatches _ UploadID UploadID
                (Uploads receivedList) (Uploads expectedList)
                uploadMatches_id Hndr) as Hfull.
  split.
  - destruct (Nat.eqb_spec (length (Uploads receivedList))
                (length (Uploads expectedList))) as [Hlen|]; [|discriminate].
    destruct (Nat.eqb_spec
                (pairCount uploadMatches (Uploads receivedList)
                   (Uploads expectedList))
                (length (Uploads expectedList))) as [Hc|]; [|discriminate].
    intros _. apply Permutation_sym.
    apply NoDup_Permutation_bis.
    + now apply NoDup_map_inv in Hnde.
    + lia.
    + intros e He. destruct (proj1 Hfull Hc e He) as (r & Hr & Hm).
      apply uploadMatches_eq in Hm. now subst.
  - intro Hperm.
    rewrite (Permutation_length Hperm), Nat.eqb_refl.
    assert (Hc : pairCount uploadMatches (Uploads receivedList)
                   (Uploads expectedList) = length (Uploads expectedList)).
    { apply Hfull. intros e He. exists e. split.
      - apply (Permutation_in _ (Permutation_sym Hperm) He).
      - now apply uploadMatches_eq. }
    now rewrite Hc, Nat.eqb_refl.
Qed.

(** X13.  The expectation the driver builds leaves every size at zero, and
    the comparison includes the size: against it, a listing of as many
    uploads (one at least) that reports a nonzero size for each is rejected
    as wrong metadata, whatever its keys and upload IDs. *)
Theorem verifyBodyListMultipartUploads_sizes_of_driver (res : Response)
    (receivedList : listMultipartUploadsResult) (bucketName : string)
    (multipartObjects : list ObjectMultipartInfo) :
  decodeUploadsResult (Body res) = inr receivedList ->
  multipartObjects <> [] ->
  length (Uploads receivedList) = length multipartObjects ->
  (forall u, In u (Uploads receivedList) -> UploadSize u <> 0%Z) ->
  outcome (verifyBodyListMultipartUploads decodeUploadsResult res
             (expectedListOf bucketName multipartObjects))
  = Some WrongMetaData.
Proof.
  intros Hdec Hne Hlen Hsize. unfold outcome.
  rewrite (verifyBodyUploads_decoded _ (expectedListOf bucketName multipartObjects)
             Hdec). simpl.
  rewrite compareUploads_outcome, countUploads_pairCount.
  cbn [expectedListOf Uploads]. rewrite length_map, Hlen, Nat.eqb_refl.
  assert (Hzero : pairCount uploadMatches (Uploads receivedList)
            (map (fun multipartObject =>
                    {| UploadKey := UploadKey multipartObject;
                       UploadID := UploadID multipartObject;
                       UploadSize := 0 |}) multipartObjects) = 0).
  { apply pairCount_none. intros u m Hu Hm.
    apply in_map_iff in Hm. destruct Hm as (m0 & <- & _).
    unfold uploadMatches. cbn [UploadSize].
    pose proof (Hsize u Hu) as Hz. apply Z.eqb_neq in Hz. now rewrite Hz. }
  rewrite Hzero.
  destruct multipartObjects; [contradiction | reflexivity].
Qed.

End BodyListMultipartUploads.

(* ================================================================== *)
(** ** More on the region default *)

Section MoreRegion.

Import Config.

Variable URL : Type.
Variable url_Parse : string -> error + URL.
Variable isAmazonEndpoint : URL -> bool.
Variable globalDefaultRegion : string.

(** X14.  [setRegion] is idempotent: calling it again on the configuration it
    left gives the same configuration and the same error. *)
Theorem setRegion_idempotent (config : ServerConfig) :
  setRegion url_Parse isAmazonEndpoint globalDefaultRegion
    (fst (setRegion url_Parse isAmazonEndpoint globalDefaultRegion config))
  = setRegion url_Parse isAmazonEndpoint globalDefaultRegion config.
Proof.
  unfold setRegion at 2 3.
  destruct (url_Parse (Endpoint config)) as [err|u] eqn:Hparse.
  - simpl. unfold setRegion. now rewrite Hparse.
  - destruct (String.eqb_spec (Region config) EmptyString) as [He|Hne].
    + destruct (isAmazonEndpoint u) eqn:Ha; simpl;
        unfold setRegion; simpl; rewrite Hparse, ?Ha.
      * reflexivity.
      * now destruct (globalDefaultRegion =? EmptyString).
    + simpl. unfold setRegion. rewrite Hparse.
      apply String.eqb_neq in Hne. now rewrite Hne.
Qed.

(** X15.  [setRegion] never touches the credentials and the endpoint; it
    returns an error exactly when the endpoint does not parse, the error
    being that of the parser, and then it leaves the whole configuration as
    it was. *)
Theorem setRegion_frame (config : ServerConfig) :
  Access (fst (setRegion url_Parse isAmazonEndpoint globalDefaultRegion config))
    = Access config
  /\ Secret (fst (setRegion url_Parse isAmazonEndpoint globalDefaultRegion
                    config)) = Secret config
  /\ Endpoint (fst (setRegion url_Parse isAmazonEndpoint globalDefaultRegion
                      config)) = Endpoint config
  /\ snd (setRegion url_Parse isAmazonEndpoint globalDefaultRegion config)
     = match url_Parse (Endpoint config) with
       | inl err => Some err
       | inr _ => None
       end
  /\ (forall err,
        url_Parse (Endpoint config) = inl err ->
        fst (setRegion url_Parse isAmazonEndpoint globalDefaultRegion config)
        = config).
Proof.
  unfold setRegion.
  destruct (url_Parse (Endpoint config)) as [err|u].
  - now repeat split.
  - destruct (Region config =? EmptyString); [destruct (isAmazonEndpoint u)|];
      repeat split; intros; discriminate.
Qed.

(** X16.  When the global default region is not empty, a call of [setRegion]
    that returns no error leaves a configuration with a region. *)
Theorem setRegion_region_set (config : ServerConfig) :
  globalDefaultRegion <> EmptyString ->
  snd (setRegion url_Parse isAmazonEndpoint globalDefaultRegion config) = None ->
  Region (fst (setRegion url_Parse isAmazonEndpoint globalDefaultRegion config))
  <> EmptyString.
Proof.
  intros Hdflt. unfold setRegion.
  destruct (url_Parse (Endpoint config)) as [err|u]; [discriminate|].
  destruct (String.eqb_spec (Region config) EmptyString) as [He|Hne].
  - destruct (isAmazonEndpoint u); simpl; intros _; [discriminate | exact Hdflt].
  - intros _. exact Hne.
Qed.

End MoreRegion.

(* ================================================================== *)
(** ** The request builders *)

Section QueryValues.

Import Requests.

Lemma valuesGet_filter_other (key k : string) (v : Values) :
  k <> key ->
  valuesGet key (filter (fun kv => negb (fst kv =? k)) v) = valuesGet key v.
Proof.
  intro Hne. induction v as [|[k' vs] v IH]; simpl; [reflexivity|].
  destruct (String.eqb_spec k' k) as [->|Hk]; simpl.
  - apply String.eqb_neq in Hne. now rewrite Hne.
  - now rewrite IH.
Qed.

Lemma valuesGet_set (key k value : string) (v : Values) :
  valuesGet key (valuesSet k value v)
  = if k =? key then Some [value] else valuesGet key v.
Proof.
  unfold valuesSet. simpl.
  destruct (String.eqb_spec k key) as [|Hne]; [reflexivity|].
  now apply valuesGet_filter_other.
Qed.

Lemma urlValues_loop (parameters : list (string * string)) (acc : Values)
    (key : string) (vs : list string) :
  NoDup (map fst parameters) ->
  (valuesGet key
     (fold_left (fun urlValues kv => valuesSet (fst kv) (snd kv) urlValues)
        parameters acc) = Some vs
   <-> (exists value, vs = [value] /\ In (key, value) parameters)
       \/ (~ In key (map fst parameters) /\ valuesGet key acc = Some vs)).
Proof.
  revert acc.
  induction parameters as [|[k v] parameters IH]; intros acc Hnd.
  - simpl. split; [intro H; right; now split|].
    intros [(value & _ & [])|[_ H]]; exact H.
  - inversion Hnd as [|? ? Hnotin Hnd']; subst.
    cbn [fold_left fst snd]. rewrite (IH _ Hnd'), valuesGet_set. simpl.
    destruct (String.eqb_spec k key) as [->|Hne].
    + split.
      * intros [(value & -> & Hin)|[_ H]].
        -- exfalso. apply Hnotin. apply in_map_iff. now exists (key, value).
        -- injection H as <-. left. exists v. split; [reflexivity|now left].
      * intros [(value & -> & [Heq|Hin])|[Hn _]].
        -- injection Heq as ->. right. split; [exact Hnotin|reflexivity].
        -- exfalso. apply Hnotin. apply in_map_iff. now exists (key, value).
        -- exfalso. apply Hn. now left.
    + split.
      * intros [(value & -> & Hin)|[Hn H]].
        -- left. exists value. split; [reflexivity|now right].
        -- right. split; [|exact H]. intros [Heq|Hin]; [contradiction|].
           now apply Hn.
      * intros [(value & -> & [Heq|Hin])|[Hn H]].
        -- injection Heq as -> _. contradiction.
        -- left. now exists value.
        -- right. split; [|exact H]. intro Hin. apply Hn. now right.
Qed.

(** X17.  The query values built from a parameter map hold exactly the
    supplied parameters, each with its one value, in whatever order the loop
    meets them: a name is bound to a list of values exactly when that list is
    the single value the map gives to the name. *)
Theorem urlValuesOf_exact (parameters : list (string * string))
    (key : string) (vs : list string) :
  NoDup (map fst parameters) ->
  (valuesGet key (urlValuesOf parameters) = Some vs
   <-> exists value, vs = [value] /\ In (key, value) parameters).
Proof.
  intro Hnd. unfold urlValuesOf. rewrite (@urlValues_loop parameters [] key vs Hnd).
  split; [|intro H; now left].
  intros [H|[_ H]]; [exact H | discriminate].
Qed.

End QueryValues.

Section BuilderProperties.

Import Requests.

Variable URL : Type.
Variable makeTargetURL :
  string -> string -> string -> string -> Values -> error + URL.
Variable computeHash : string -> error + (string * string * Z).
Variable hexEncodeToString : string -> string.
Variable SignV4 : Request URL -> string -> string -> string -> Request URL.
Variable execRequest : Request URL -> string -> string -> error + Response.

(** X18.  The request for the upload listing is the request for the object
    listing with the one parameter [uploads], of empty value: the two
    builders differ in nothing else. *)
Theorem newListMultipartUploadsReq_as_listObjects (config : ServerConfig)
    (bucketName : string) :
  newListMultipartUploadsReq makeTargetURL computeHash hexEncodeToString SignV4
    config bucketName
  = newListObjectsV1Req makeTargetURL computeHash hexEncodeToString SignV4
      config bucketName [("uploads", EmptyString)].
Proof. reflexivity. Qed.

(** X19.  [newListObjectsV1Req] returns an error exactly when the target URL
    cannot be built or, the URL being built, the hash of the empty body
    cannot be computed; the error is the one of the failing collaborator, the
    URL builder first. *)
Theorem newListObjectsV1Req_error_iff (config : ServerConfig)
    (bucketName : string) (parameters : list (string * string)) (err : error) :
  newListObjectsV1Req makeTargetURL computeHash hexEncodeToString SignV4
    config bucketName parameters = inl err
  <-> makeTargetURL (Endpoint config) bucketName EmptyString (Region config)
        (urlValuesOf parameters) = inl err
      \/ ((exists targetURL,
             makeTargetURL (Endpoint config) bucketName EmptyString
               (Region config) (urlValuesOf parameters) = inr targetURL)
          /\ computeHash EmptyString = inl err).
Proof.
  unfold newListObjectsV1Req. cbv zeta.
  destruct (makeTargetURL (Endpoint config) bucketName EmptyString
              (Region config) (urlValuesOf parameters)) as [e|u].
  - split.
    + intro H. left. congruence.
    + intros [H|[[u Hu] _]]; [congruence | discriminate].
  - destruct (computeHash EmptyString) as [e|[[md5Sum sha256Sum] size]].
    + split.
      * intro H. right. split; [now exists u | congruence].
      * intros [H|[_ H]]; [discriminate | congruence].
    + split; [discriminate|].
      intros [H|[_ H]]; discriminate.
Qed.

(** X20.  The test of [mainListMultipartUploads] passes exactly when the
    request is built and answered: nothing in the answer (status, headers,
    body) can make it fail. *)
Theorem mainListMultipartUploads_passes_iff (config : ServerConfig)
    (bucketName : string) (multipartObjects : list ObjectMultipartInfo) :
  mainListMultipartUploads makeTargetURL computeHash hexEncodeToString SignV4
    execRequest config bucketName multipartObjects = true
  <-> exists req res,
        newListMultipartUploadsReq makeTargetURL computeHash hexEncodeToString
          SignV4 config bucketName = inr req
        /\ execRequest req bucketName EmptyString = inr res.
Proof.
  unfold mainListMultipartUploads.
  destruct (newListMultipartUploadsReq makeTargetURL computeHash
              hexEncodeToString SignV4 config bucketName) as [e|req].
  - split; [discriminate | intros (r & s & H & _); discriminate].
  - destruct (execRequest req bucketName EmptyString) as [e|res] eqn:Hex.
    + split; [discriminate|]. intros (r & s & H & H'). injection H as <-.
      rewrite Hex in H'. discriminate.
    + split; [|reflexivity]. intros _. now exists req, res.
Qed.

End BuilderProperties.

(* ================================================================== *)
(** ** Closed instances of the further properties *)

Module MoreExamples.

Import Doubles MoreDoubles.

Lemma verifyBodyListObjectsV1_malformed_body_witness :
  decodeBodies "<ListBucketResult" = inl (ExternalError "XML syntax error")
  /\ run (ListObjectsV1.verifyBodyListObjectsV1 decodeBodies [objA; objB]
            (respond "200 OK" "<ListBucketResult")
            (expecting "s3verify-bucket" [objA; objB] 0))
     = ([EvDecodeBody], Some (ExternalError "XML syntax error")).
Proof.
  split; [reflexivity|].
  apply (@verifyBodyListObjectsV1_malformed_body decodeBodies [objA; objB]
           (respond "200 OK" "<ListBucketResult")
           (expecting "s3verify-bucket" [objA; objB] 0)
           (ExternalError "XML syntax error")).
  reflexivity.
Defined.

Lemma verifyBodyListObjectsV1_bucket_first_witness :
  "other-bucket" <> "s3verify-bucket"
  /\ run (ListObjectsV1.verifyBodyListObjectsV1 decodeBodies [objA; objB]
            (respond "200 OK" "<ListBucketResult>other: A B</ListBucketResult>")
            (expecting "s3verify-bucket" [objA; objB] 0))
     = ([EvDecodeBody],
        Some (UnexpectedBucket "s3verify-bucket" "other-bucket")).
Proof.
  split; [discriminate|].
  apply (@verifyBodyListObjectsV1_bucket_first decodeBodies [objA; objB]
           (respond "200 OK" "<ListBucketResult>other: A B</ListBucketResult>")
           (listing "other-bucket" [listed objA; listed objB])
           (expecting "s3verify-bucket" [objA; objB] 0));
    [reflexivity | discriminate].
Defined.

Lemma verifyBodyListObjectsV1_limit_counts_only_witness :
  (2 <> 0)%Z
  /\ outcome (ListObjectsV1.verifyBodyListObjectsV1 decodeBodies []
                (respond "200 OK" "<ListBucketResult>A C</ListBucketResult>")
                (expecting "s3verify-bucket" [objB] 2))
     = outcome (ListObjectsV1.verifyBodyListObjectsV1 decodeBodies [objA; objB]
                  (respond "200 OK" "<ListBucketResult>A B</ListBucketResult>")
                  (expecting "s3verify-bucket" [objA; objB] 2)).
Proof.
  split; [discriminate|].
  apply (@verifyBodyListObjectsV1_limit_counts_only decodeBodies
           [objA; objB] []
           (respond "200 OK" "<ListBucketResult>A B</ListBucketResult>")
           (respond "200 OK" "<ListBucketResult>A C</ListBucketResult>")
           (listing "s3verify-bucket" [listed objA; listed objB])
           (listing "s3verify-bucket" [listed objA; listed objC])
           (expecting "s3verify-bucket" [objA; objB] 2)
           (expecting "s3verify-bucket" [objB] 2));
    try reflexivity.
  discriminate.
Defined.


Lemma verifyBodyListObjectsV1_accepts_faithful_listing_witness :
  NoDup (map Key [objA; objB])
  /\ Permutation (map comparedFields [served objB; served objA])
       (map listedFields [objA; objB])
  /\ outcome (ListObjectsV1.verifyBodyListObjectsV1 decodeServedBodies
                [objA; objB]
                (respond "200 OK"
                   "<ListBucketResult>B A, server times</ListBucketResult>")
                (ListObjectsV1.expectedListOf [objA; objB] "s3verify-bucket"))
     = None.
Proof.
  assert (Hnd : NoDup (map Key [objA; objB]))
    by (apply distinctb_NoDup; reflexivity).
  assert (Hperm : Permutation (map comparedFields [served objB; served objA])
                    (map listedFields [objA; objB]))
    by apply perm_swap.
  split; [exact Hnd|]. split; [exact Hperm|].
  apply (@verifyBodyListObjectsV1_accepts_faithful_listing decodeServedBodies
           [objA; objB] "s3verify-bucket"
           (respond "200 OK"
              "<ListBucketResult>B A, server times</ListBucketResult>")
           (listing "s3verify-bucket" [served objB; served objA]));
    [exact Hnd | reflexivity | reflexivity | exact Hperm].
Defined.


Lemma mainListObjectsV1_conforming_server_passes_witness :
  NoDup (map Key registry)
  /\ Permutation (map comparedFields (map served registry))
       (map listedFields registry)
  /\ ListObjectsV1.mainListObjectsV1 decodeServedBodies (requireHeader "Date")
       registry timestampingServer "s3verify-bucket" = Some true.
Proof.
  assert (Hnd : NoDup (map Key registry))
    by (apply distinctb_NoDup; vm_compute; reflexivity).
  assert (Hperm : Permutation (map comparedFields (map served registry))
                    (map listedFields registry))
    by (rewrite map_map; apply Permutation_refl).
  split; [exact Hnd|]. split; [exact Hperm|].
  apply (@mainListObjectsV1_conforming_server_passes decodeServedBodies
           (requireHeader "Date") registry timestampingServer "s3verify-bucket"
           (respond "200 OK"
              "<ListBucketResult>all 45, server times</ListBucketResult>")
           (respond "200 OK" "<ListBucketResult>30 of 45</ListBucketResult>")
           (listing "s3verify-bucket" (map served registry)) limitedListing);
    try reflexivity.
  - vm_compute; lia.
  - exact Hnd.
Defined.

Lemma mainListObjectsV1_limit_ignored_fails_witness :
  length (Contents fullListing) + length (CommonPrefixes fullListing) <> 30
  /\ ListObjectsV1.mainListObjectsV1 decodeDriverBodies (requireHeader "Date")
       registry ignoringServer "s3verify-bucket" = Some false.
Proof.
  assert (Hc : length (Contents fullListing)
               + length (CommonPrefixes fullListing) <> 30)
    by (vm_compute; lia).
  split; [exact Hc|].
  apply (@mainListObjectsV1_limit_ignored_fails decodeDriverBodies
           (requireHeader "Date") registry ignoringServer "s3verify-bucket"
           (respond "200 OK" "<ListBucketResult>all 45</ListBucketResult>")
           fullListing);
    [vm_compute; lia | reflexivity | reflexivity | exact Hc].
Defined.

End MoreExamples.

Module MoreUploadsExamples.

Import ListMultipartUploads Doubles MoreDoubles.

Lemma verifyBodyListMultipartUploads_errors_witness :
  length [uploadA] <> length [uploadA; uploadB]
  /\ run (verifyBodyListMultipartUploads decodeMoreUploadBodies
            (respond "200 OK"
               "<ListMultipartUploadsResult>A</ListMultipartUploadsResult>")
            (expectedListOf "s3verify-bucket" [uploadA; uploadB]))
     = ([EvDecodeBody], Some (UnexpectedUploadCount 2 1)).
Proof.
  split; [discriminate|].
  apply (proj2 (@verifyBodyListMultipartUploads_errors decodeMoreUploadBodies
                  (respond "200 OK"
                     "<ListMultipartUploadsResult>A</ListMultipartUploadsResult>")
                  (expectedListOf "s3verify-bucket" [uploadA; uploadB]))
           {| Bucket := "s3verify-bucket"; Uploads := [uploadA] |});
    [reflexivity | discriminate].
Defined.

Lemma verifyBodyListMultipartUploads_permutation_witness :
  Permutation [uploadA; uploadB] [uploadB; uploadA]
  /\ run (verifyBodyListMultipartUploads decodeMoreUploadBodies
            (respond "200 OK"
               "<ListMultipartUploadsResult>B A</ListMultipartUploadsResult>")
            (expectedListOf "s3verify-bucket" [uploadA; uploadB]))
     = run (verifyBodyListMultipartUploads decodeMoreUploadBodies
              (respond "200 OK"
                 "<ListMultipartUploadsResult>A B</ListMultipartUploadsResult>")
              (expectedListOf "s3verify-bucket" [uploadA; uploadB])).
Proof.
  split; [apply perm_swap|].
  apply (@verifyBodyListMultipartUploads_permutation decodeMoreUploadBodies
           (respond "200 OK"
              "<ListMultipartUploadsResult>A B</ListMultipartUploadsResult>")
           (respond "200 OK"
              "<ListMultipartUploadsResult>B A</ListMultipartUploadsResult>")
           {| Bucket := "s3verify-bucket"; Uploads := [uploadA; uploadB] |}
           {| Bucket := "s3verify-bucket"; Uploads := [uploadB; uploadA] |}
           (expectedListOf "s3verify-bucket" [uploadA; uploadB]));
    [reflexivity | reflexivity | apply perm_swap].
Defined.

Lemma verifyBodyListMultipartUploads_success_iff_witness :
  NoDup (map UploadID [uploadB; uploadA])
  /\ (outcome (verifyBodyListMultipartUploads decodeMoreUploadBodies
                 (respond "200 OK"
                    "<ListMultipartUploadsResult>B A</ListMultipartUploadsResult>")
                 (expectedListOf "s3verify-bucket" [uploadA; uploadB])) = None
      <-> Permutation [uploadB; uploadA]
            (Uploads (expectedListOf "s3verify-bucket" [uploadA; uploadB]))).
Proof.
  assert (Hnd : NoDup (map UploadID [uploadB; uploadA]))
    by (apply distinctb_NoDup; reflexivity).
  split; [exact Hnd|].
  apply (@verifyBodyListMultipartUploads_success_iff decodeMoreUploadBodies
           (respond "200 OK"
              "<ListMultipartUploadsResult>B A</ListMultipartUploadsResult>")
           {| Bucket := "s3verify-bucket"; Uploads := [uploadB; uploadA] |}
           (expectedListOf "s3verify-bucket" [uploadA; uploadB]));
    [reflexivity | exact Hnd | apply distinctb_NoDup; reflexivity].
Defined.

Lemma verifyBodyListMultipartUploads_sizes_of_driver_witness :
  [uploadA] <> []
  /\ outcome (verifyBodyListMultipartUploads decodeMoreUploadBodies
                (respond "200 OK"
                   "<ListMultipartUploadsResult>A, 5 bytes</ListMultipartUploadsResult>")
                (expectedListOf "s3verify-bucket" [uploadA]))
     = Some WrongMetaData.
Proof.
  split; [discriminate|].
  apply (@verifyBodyListMultipartUploads_sizes_of_driver decodeMoreUploadBodies
           (respond "200 OK"
              "<ListMultipartUploadsResult>A, 5 bytes</ListMultipartUploadsResult>")
           {| Bucket := "s3verify-bucket";
              Uploads := [ {| UploadKey := "s3verify-multipart-0";
                              UploadID := "upload-id-0"; UploadSize := 5 |} ] |}
           "s3verify-bucket" [uploadA]);
    [reflexivity | discriminate | reflexivity |].
  intros u [<-|[]]. discriminate.
Defined.

End MoreUploadsExamples.

Module MoreRegionExamples.

Import Config Requests Doubles MoreDoubles.

Lemma setRegion_frame_witness :
  parseEndpoint EmptyString = inl (ExternalError "empty url")
  /\ fst (setRegion parseEndpoint amazonDouble "us-east-1"
            (mkServerConfig "access" "secret" EmptyString EmptyString))
     = mkServerConfig "access" "secret" EmptyString EmptyString.
Proof.
  split; [reflexivity|].
  apply (proj2 (proj2 (proj2 (proj2
           (setRegion_frame parseEndpoint amazonDouble "us-east-1"
              (mkServerConfig "access" "secret" EmptyString EmptyString)))))
           (ExternalError "empty url")).
  reflexivity.
Defined.

Lemma setRegion_region_set_witness :
  "us-east-1" <> EmptyString
  /\ Region (fst (setRegion parseEndpoint amazonDouble "us-east-1"
                    (mkServerConfig "access" "secret"
                       "https://play.minio.io:9000" EmptyString)))
     <> EmptyString.
Proof.
  split; [discriminate|].
  apply (@setRegion_region_set string parseEndpoint amazonDouble "us-east-1"
           (mkServerConfig "access" "secret" "https://play.minio.io:9000"
              EmptyString));
    [discriminate | reflexivity].
Defined.

Lemma urlValuesOf_exact_witness :
  NoDup (map fst [("max-keys", "30"); ("prefix", "photos/")])
  /\ (valuesGet "max-keys"
        (urlValuesOf [("max-keys", "30"); ("prefix", "photos/")]) = Some ["30"]
      <-> exists value,
            ["30"] = [value]
            /\ In ("max-keys", value)
                 [("max-keys", "30"); ("prefix", "photos/")]).
Proof.
  assert (Hnd : NoDup (map fst [("max-keys", "30"); ("prefix", "photos/")]))
    by (apply distinctb_NoDup; reflexivity).
  split; [exact Hnd|].
  apply (@urlValuesOf_exact [("max-keys", "30"); ("prefix", "photos/")]
           "max-keys" ["30"] Hnd).
Defined.

End MoreRegionExamples.
